(** * funance: a verification development

    Shallow embedding of the Python sources of funance

      - [scrape/export/brokerage_formatter.py]  (module [Formatter])
      - [common/redis.py]                       (module [Redis])
      - [cli/dashboard/commands.py]             (module [Cli])
      - [forecast/dashboard.py]                 (modules [Calendar], [Dashboard])

    together with a model of the forecast projection engine, whose code is
    not part of the sources and is described by the design document only
    (module [Engine]). *)

From Stdlib Require Import ZArith List String Ascii Bool Lia Sorted.
From stdpp Require Import base gmap strings list.

Set Warnings "-register-all".

Local Open Scope Z_scope.
Local Open Scope string_scope.

(** ** Python values, exceptions and fallible computations *)

Module Py.

(** The exceptions the modelled code can raise.  [Raised] stands for an
    exception of a collaborator that the sources do not pin down. *)
Inductive exn : Type :=
| KeyError (key : string)
| TypeError
| AttributeError (attr : string)
| ValueError
| OverflowError
| UnboundLocalError (name : string)
| FileNotFoundError (path : string)
| IsADirectoryError (path : string)
| UnsupportedFormatterException (msg : string)
| UnicodeEncodeError
| Raised (what : string).

Inductive result (A : Type) : Type :=
| Ok (a : A)
| Raise (e : exn).
Arguments Ok {A} a.
Arguments Raise {A} e.

Definition bind {A B} (r : result A) (k : A -> result B) : result B :=
  match r with
  | Ok a => k a
  | Raise e => Raise e
  end.

(** [mapM f l]: evaluate [f] on the elements of [l] from left to right and
    stop at the first exception (a list comprehension, [list(map(f, l))]). *)
Fixpoint mapM {A B} (f : A -> result B) (l : list A) : result (list B) :=
  match l with
  | [] => Ok []
  | x :: l' =>
      bind (f x) (fun y => bind (mapM f l') (fun ys => Ok (y :: ys)))
  end.

(** What [json.load] and [yaml.safe_load] return: scalars, lists and
    mappings.  A mapping keeps its insertion order; its keys are strings.
    A float is kept as the text of its literal. *)
Inductive pyval : Type :=
| PNone
| PBool (b : bool)
| PInt (z : Z)
| PFloat (literal : string)
| PStr (s : string)
| PList (l : list pyval)
| PDict (d : list (string * pyval)).

(** [d.get(k)] on the association list of a mapping. *)
Fixpoint assoc {V} (k : string) (d : list (string * V)) : option V :=
  match d with
  | [] => None
  | (k', v) :: d' => if String.eqb k k' then Some v else assoc k d'
  end.

(** [v[k]] for a string key [k]. *)
Definition getitem (v : pyval) (k : string) : result pyval :=
  match v with
  | PDict d =>
      match assoc k d with
      | Some x => Ok x
      | None => Raise (KeyError k)
      end
  | _ => Raise TypeError
  end.

(** [v.values()]: only a mapping has the method. *)
Definition values (v : pyval) : result (list pyval) :=
  match v with
  | PDict d => Ok (map snd d)
  | _ => Raise (AttributeError "values")
  end.

Fixpoint chars (s : string) : list pyval :=
  match s with
  | EmptyString => []
  | String c s' => PStr (String c EmptyString) :: chars s'
  end.

(** [iter(v)], as a [for] loop or [map] consumes it: the elements of a list,
    the keys of a mapping, the characters of a string. *)
Definition iter (v : pyval) : result (list pyval) :=
  match v with
  | PList l => Ok l
  | PDict d => Ok (map (fun kv => PStr (fst kv)) d)
  | PStr s => Ok (chars s)
  | _ => Raise TypeError
  end.

(** [v == s] for a string literal [s]. *)
Definition eq_str (v : pyval) (s : string) : bool :=
  match v with
  | PStr t => String.eqb t s
  | _ => false
  end.

Fixpoint startswith (s p : string) : bool :=
  match p, s with
  | EmptyString, _ => true
  | String c p', String d s' => Ascii.eqb c d && startswith s' p'
  | String _ _, EmptyString => false
  end.

Definition endswith (s suf : string) : bool :=
  let n := String.length s in
  let m := String.length suf in
  (m <=? n)%nat && String.eqb (substring (n - m) m s) suf.

(** [sep.join(l)] *)
Fixpoint join (sep : string) (l : list string) : string :=
  match l with
  | [] => EmptyString
  | [x] => x
  | x :: l' => x +:+ sep +:+ join sep l'
  end.

End Py.

Module PyNotations.
  Notation "'let?' x ':=' c1 'in' c2" := (Py.bind c1 (fun x => c2))
    (at level 10, x name, c1 at level 100, c2 at level 200).
End PyNotations.

(** ** scrape/export/brokerage_formatter.py *)

Module Formatter.
Import Py PyNotations.

Definition PREFIX : string := "brokerage".

(** A row handed to the [csv] writer: the cell values, in column order. *)
Definition row : Type := list pyval.

(** The export directory as [os.listdir] enumerates it: each name with what
    [open] followed by [json.load] yields for it. *)
Definition directory : Type := list (string * result pyval).

(** Computations that write rows to the opened CSV file and may raise.  The
    rows written before an exception stay in the file. *)
Definition W (A : Type) : Type := list row -> list row * result A.

Definition ret {A} (a : A) : W A := fun out => (out, Ok a).

Definition bindW {A B} (c : W A) (k : A -> W B) : W B :=
  fun out =>
    match c out with
    | (out', Ok a) => k a out'
    | (out', Raise e) => (out', Raise e)
    end.

Definition lift {A} (r : result A) : W A := fun out => (out, r).

(** The CSV file is opened with [open(..., mode='w')]: a text file in the
    encoding of the locale, with strict error handling.  An [encoding] tells
    for which cells that encoding has bytes for the text [csv] makes of them.
    No encoding has bytes for a lone surrogate, which [json.load] accepts in
    a string. *)
Definition encoding : Type := pyval -> bool.

Definition is_ascii (s : string) : bool :=
  forallb (fun c => match c with Ascii _ _ _ _ _ _ _ b7 => negb b7 end)
          (list_ascii_of_string s).

(** The cells whose text is ASCII, which every encoding of a locale has
    bytes for: [None], booleans, numbers and strings of ASCII characters. *)
Definition plain_ascii (cell : pyval) : bool :=
  match cell with
  | PNone | PBool _ | PInt _ | PFloat _ => true
  | PStr s => is_ascii s
  | PList _ | PDict _ => false
  end.

Definition writable (enc : encoding) (cell : pyval) : bool :=
  plain_ascii cell || enc cell.

Definition writable_row (enc : encoding) (r : row) : bool :=
  forallb (writable enc) r.

(** [csv] hands the file a row as one line of text: the file takes the whole
    row, or it raises [UnicodeEncodeError] and takes nothing of it. *)
Definition write (enc : encoding) (r : row) : W unit :=
  fun out =>
    if writable_row enc r then ((out ++ [r])%list, Ok tt)
    else (out, Raise UnicodeEncodeError).

Notation "'let!' x ':=' c1 'in' c2" := (bindW c1 (fun x => c2))
  (at level 10, x name, c1 at level 100, c2 at level 200).

(** [for x in l: body(x)] *)
Fixpoint for_each {A} (l : list A) (body : A -> W unit) : W unit :=
  match l with
  | [] => ret tt
  | x :: l' => let! _ := body x in for_each l' body
  end.

(** [csv.DictWriter(fieldnames=...)]: [_dict_to_list] refuses keys that are
    not field names and fills missing fields with the empty string. *)
Definition dict_to_list (fieldnames : list string)
    (rowdict : list (string * pyval)) : result row :=
  if forallb (fun kv => existsb (String.eqb (fst kv)) fieldnames) rowdict
  then Ok (map (fun k => default (PStr EmptyString) (assoc k rowdict)) fieldnames)
  else Raise ValueError.

Definition writeheader (enc : encoding) (fieldnames : list string) : W unit :=
  write enc (map PStr fieldnames).

Definition writerow (enc : encoding) (fieldnames : list string)
    (rowdict : list (string * pyval)) : W unit :=
  let! r := lift (dict_to_list fieldnames rowdict) in write enc r.

Module CsvFormatter.

Definition HEADERS : list string :=
  ["account_name"; "ticker"; "date_acquired"; "num_shares"; "cost_per_share";
   "total_cost"; "term"].

(** The body of the innermost loop: the keyword arguments of [dict(...)] are
    evaluated in the order they are written. *)
Definition write_lot (enc : encoding) (a cb lot : pyval) : W unit :=
  let! ticker := lift (getitem cb "ticker") in
  let! date_acquired := lift (getitem lot "date_acquired") in
  let! num_shares := lift (getitem lot "num_shares") in
  let! cost_per_share := lift (getitem lot "cost_per_share") in
  let! total_cost := lift (getitem lot "total_cost") in
  let! account_name := lift (getitem a "account_name") in
  let! term := lift (getitem lot "term") in
  writerow enc HEADERS
    [("ticker", ticker); ("date_acquired", date_acquired);
     ("num_shares", num_shares); ("cost_per_share", cost_per_share);
     ("total_cost", total_cost); ("account_name", account_name);
     ("term", term)].

Definition write_cost_basis (enc : encoding) (a cb : pyval) : W unit :=
  let! lots := lift (let? lots_v := getitem cb "lots" in iter lots_v) in
  for_each lots (write_lot enc a cb).

Definition write_account (enc : encoding) (a : pyval) : W unit :=
  let! cbs := lift (let? cost_basis := getitem a "cost_basis" in values cost_basis) in
  for_each cbs (write_cost_basis enc a).

Definition write_data (enc : encoding) (data : pyval) : W unit :=
  let! accounts := lift (let? accts := getitem data "accounts" in values accts) in
  for_each accounts (write_account enc).

Definition load (dir : directory) (filename : string) : result pyval :=
  match assoc filename dir with
  | Some r => r
  | None => Raise (FileNotFoundError filename)
  end.

Definition selected (f : string) : bool :=
  startswith f PREFIX && endswith f ".json".

(** [CsvFormatter.format]: the rows of [brokerage.csv] after the call, and
    whether the call returned or raised, for the encoding [enc] of the file. *)
Definition format (enc : encoding) (dir : directory) : list row * result unit :=
  let filenames := List.filter selected (map fst dir) in
  (let! _ := writeheader enc HEADERS in
   for_each filenames (fun filename =>
     let! data := lift (load dir filename) in
     write_data enc data)) [].

End CsvFormatter.

Inductive formatter : Type :=
| CsvFormatterInstance.

Module BrokerageFormatterFactory.

(** The class attribute [formatters]: formatter names and their classes. *)
Definition formatters : list (string * formatter) :=
  [("csv", CsvFormatterInstance)].

Definition get_supported_formatters : list string := map fst formatters.

Definition get_formatter (formatter_name : string) : result formatter :=
  match assoc formatter_name formatters with
  | None =>
      let supported_formatters := join ", " get_supported_formatters in
      Raise (UnsupportedFormatterException
               ("Formatter must be one of " +:+ supported_formatters))
  | Some formatter_class => Ok formatter_class
  end.

End BrokerageFormatterFactory.

(** The document of [test_brokerage_writer.py]: what [BrokerageWriter]
    dumps after one account with one ticker and one lot was added. *)
Definition writer_test_document : pyval :=
  PDict
    [("_meta", PDict [("brokerage", PStr "vanguard"); ("version", PStr "0.0.1")]);
     ("accounts",
       PList
         [PDict
            [("account_name", PStr "Freedom");
             ("cash", PStr EmptyString);
             ("cost_basis",
               PList
                 [PDict
                    [("ticker", PStr "CRLBF");
                     ("company_name", PStr "Cresco Labs");
                     ("total_shares", PStr "73");
                     ("lots",
                       PList
                         [PDict
                            [("date_acquired", PStr "12/27/2018");
                             ("num_shares", PStr "16.0000");
                             ("cost_per_share", PStr "39.21");
                             ("total_cost", PStr "627.32")]])]])]])].

(** The shape [CsvFormatter.format] reads: mappings of accounts and of
    cost-basis entries, and lots that carry a [term]. *)
Record lot : Type := {
  date_acquired : pyval;
  num_shares : pyval;
  cost_per_share : pyval;
  total_cost : pyval;
  term : pyval
}.

Record cost_basis : Type := {
  ticker : pyval;
  lots : list lot
}.

Record account : Type := {
  account_name : pyval;
  cost_bases : list cost_basis
}.

Definition is_lot (v : pyval) (l : lot) : Prop :=
  getitem v "date_acquired" = Ok (date_acquired l) /\
  getitem v "num_shares" = Ok (num_shares l) /\
  getitem v "cost_per_share" = Ok (cost_per_share l) /\
  getitem v "total_cost" = Ok (total_cost l) /\
  getitem v "term" = Ok (term l).

Definition is_cost_basis (v : pyval) (cb : cost_basis) : Prop :=
  getitem v "ticker" = Ok (ticker cb) /\
  exists lv, getitem v "lots" = Ok (PList lv) /\ Forall2 is_lot lv (lots cb).

Definition is_account (v : pyval) (a : account) : Prop :=
  getitem v "account_name" = Ok (account_name a) /\
  exists d, getitem v "cost_basis" = Ok (PDict d) /\
            Forall2 is_cost_basis (map snd d) (cost_bases a).

Definition is_export (v : pyval) (accts : list account) : Prop :=
  exists d, getitem v "accounts" = Ok (PDict d) /\
            Forall2 is_account (map snd d) accts.

Definition lot_row (a : account) (cb : cost_basis) (l : lot) : row :=
  [account_name a; ticker cb; date_acquired l; num_shares l; cost_per_share l;
   total_cost l; term l].

Definition account_rows (a : account) : list row :=
  flat_map (fun cb => map (lot_row a cb) (lots cb)) (cost_bases a).

Definition export_rows (accts : list account) : list row :=
  flat_map account_rows accts.

(** *** Properties of the formatter *)

Lemma for_each_Forall2 {A B} (body : A -> W unit) (rows : B -> list row)
    (R : A -> B -> Prop) :
  (forall x y out, R x y -> body x out = ((out ++ rows y)%list, Ok tt)) ->
  forall l l' out, Forall2 R l l' ->
    for_each l body out = ((out ++ flat_map rows l')%list, Ok tt).
Proof.
  intros Hbody l l' out HF. revert out.
  induction HF as [|x y l l' HR _ IH]; intros out; simpl.
  - unfold ret. now rewrite app_nil_r.
  - unfold bindW. rewrite (Hbody x y out HR), IH. now rewrite <- app_assoc.
Qed.

Lemma flat_map_single {A B} (f : A -> B) (l : list A) :
  flat_map (fun x => [f x]) l = map f l.
Proof. induction l; simpl; congruence. Qed.

(** The rows the file takes in the encoding [enc]. *)
Definition all_writable (enc : encoding) (rows : list row) : Prop :=
  Forall (fun r => writable_row enc r = true) rows.

Lemma header_writable (enc : encoding) :
  writable_row enc (map PStr CsvFormatter.HEADERS) = true.
Proof. reflexivity. Qed.

Lemma Forall2_flat_map_Forall {A B C} (R : A -> B -> Prop) (P : C -> Prop)
    (f : B -> list C) (l : list A) (l' : list B) :
  Forall2 R l l' -> Forall P (flat_map f l') ->
  Forall2 (fun x y => R x y /\ Forall P (f y)) l l'.
Proof.
  induction 1 as [|x y l l' HR _ IH]; simpl; intros HP; constructor.
  - apply Forall_app in HP. tauto.
  - apply IH. apply Forall_app in HP. tauto.
Qed.

Lemma dict_to_list_lot (t d n c tc an tm : pyval) :
  dict_to_list CsvFormatter.HEADERS
    [("ticker", t); ("date_acquired", d); ("num_shares", n);
     ("cost_per_share", c); ("total_cost", tc); ("account_name", an);
     ("term", tm)]
  = Ok [an; t; d; n; c; tc; tm].
Proof. reflexivity. Qed.

Lemma write_lot_ok enc av cbv lv a cb l out :
  getitem av "account_name" = Ok (account_name a) ->
  getitem cbv "ticker" = Ok (ticker cb) ->
  is_lot lv l ->
  writable_row enc (lot_row a cb l) = true ->
  CsvFormatter.write_lot enc av cbv lv out
  = ((out ++ [lot_row a cb l])%list, Ok tt).
Proof.
  intros Ha Hcb (Hd & Hn & Hc & Ht & Hm) Hw.
  unfold CsvFormatter.write_lot, bindW, lift.
  rewrite Hcb, Hd, Hn, Hc, Ht, Ha, Hm.
  unfold writerow, bindW, lift, write. rewrite dict_to_list_lot.
  unfold lot_row in Hw. now rewrite Hw.
Qed.

Lemma write_cost_basis_ok enc av cbv a cb out :
  getitem av "account_name" = Ok (account_name a) ->
  is_cost_basis cbv cb ->
  all_writable enc (map (lot_row a cb) (lots cb)) ->
  CsvFormatter.write_cost_basis enc av cbv out
  = ((out ++ map (lot_row a cb) (lots cb))%list, Ok tt).
Proof.
  intros Ha (Hcb & lv & Hl & HF) Hw.
  unfold CsvFormatter.write_cost_basis, bindW, lift. rewrite Hl. simpl.
  rewrite <- flat_map_single in Hw |- *.
  eapply (for_each_Forall2 _ (fun l => [lot_row a cb l]));
    [| exact (Forall2_flat_map_Forall _ _ _ _ _ HF Hw)].
  intros x y o [Hxy Hy]. apply write_lot_ok; try assumption.
  now inversion Hy.
Qed.

Lemma write_account_ok enc av a out :
  is_account av a ->
  all_writable enc (account_rows a) ->
  CsvFormatter.write_account enc av out = ((out ++ account_rows a)%list, Ok tt).
Proof.
  intros (Ha & d & Hd & HF) Hw.
  unfold CsvFormatter.write_account, bindW, lift. rewrite Hd. simpl.
  eapply (for_each_Forall2 _ (fun cb => map (lot_row a cb) (lots cb)));
    [| exact (Forall2_flat_map_Forall _ _ _ _ _ HF Hw)].
  intros x y o [Hxy Hy]. now apply write_cost_basis_ok.
Qed.

Lemma write_data_ok enc v accts out :
  is_export v accts ->
  all_writable enc (export_rows accts) ->
  CsvFormatter.write_data enc v out = ((out ++ export_rows accts)%list, Ok tt).
Proof.
  intros (d & Hd & HF) Hw.
  unfold CsvFormatter.write_data, bindW, lift. rewrite Hd. simpl.
  eapply (for_each_Forall2 _ account_rows);
    [| exact (Forall2_flat_map_Forall _ _ _ _ _ HF Hw)].
  intros x y o [Hxy Hy]. now apply write_account_ok.
Qed.

(** X1: on exports whose accounts and cost-basis entries are mappings and
    whose lots carry a term, and when the encoding of the CSV file has bytes
    for every cell of their rows, the CSV file is the header followed by one
    row per lot, file after file in listing order. *)
Lemma format_mapping_exports
    (enc : encoding) (dir : directory) (docs : list (list account)) :
  Forall2 (fun name accts =>
             exists v, CsvFormatter.load dir name = Ok v /\ is_export v accts)
          (List.filter CsvFormatter.selected (map fst dir)) docs ->
  all_writable enc (flat_map export_rows docs) ->
  CsvFormatter.format enc dir
  = (map PStr CsvFormatter.HEADERS :: flat_map export_rows docs, Ok tt).
Proof.
  intros HF Hw. unfold CsvFormatter.format, bindW, writeheader, write.
  rewrite header_writable. simpl app.
  erewrite for_each_Forall2 with (rows := export_rows);
    [reflexivity | | exact (Forall2_flat_map_Forall _ _ _ _ _ HF Hw)].
  intros name accts out [(v & Hv & He) Hrows].
  unfold bindW, lift. rewrite Hv. now apply write_data_ok.
Qed.

(** A first exported file whose accounts are a list, as [BrokerageWriter]
    dumps them, stops the formatter right after the header. *)
Lemma format_list_accounts_raises
    (enc : encoding) (dir : directory) (name : string) (rest : list string)
    (d : list (string * pyval)) (l : list pyval) :
  List.filter CsvFormatter.selected (map fst dir) = name :: rest ->
  CsvFormatter.load dir name = Ok (PDict d) ->
  assoc "accounts" d = Some (PList l) ->
  CsvFormatter.format enc dir
  = ([map PStr CsvFormatter.HEADERS], Raise (AttributeError "values")).
Proof.
  intros Hsel Hload Hacc.
  unfold CsvFormatter.format. rewrite Hsel.
  unfold bindW, writeheader, write. rewrite header_writable. simpl.
  unfold bindW, lift. rewrite Hload.
  unfold CsvFormatter.write_data, bindW, lift. simpl. now rewrite Hacc.
Qed.

(** C1, evaluated on the document of the repository's own writer test: the
    accounts of a [BrokerageWriter] dump are a list, [data['accounts'].values()]
    raises [AttributeError], and the CSV file is left with its header row and
    no row for the lot. *)
Theorem format_writer_document_raises (enc : encoding) :
  CsvFormatter.format enc [("brokerage_vanguard.json", Ok writer_test_document)]
  = ([map PStr CsvFormatter.HEADERS], Raise (AttributeError "values")).
Proof. reflexivity. Qed.

(** The lots of that document carry no [term]: the loop body raises
    [KeyError] on them, whatever the account and the entry are. *)
Lemma write_lot_writer_lot_raises (enc : encoding) (a cb : pyval) (t : pyval) out :
  getitem cb "ticker" = Ok t ->
  forall n, getitem a "account_name" = Ok n ->
  CsvFormatter.write_lot enc a cb
    (PDict [("date_acquired", PStr "12/27/2018"); ("num_shares", PStr "16.0000");
            ("cost_per_share", PStr "39.21"); ("total_cost", PStr "627.32")]) out
  = (out, Raise (KeyError "term")).
Proof.
  intros Ht n Hn. unfold CsvFormatter.write_lot, bindW, lift.
  rewrite Ht, Hn. reflexivity.
Qed.

Lemma assoc_formatters (name : string) :
  assoc name BrokerageFormatterFactory.formatters
  = if String.eqb name "csv" then Some CsvFormatterInstance else None.
Proof. reflexivity. Qed.

(** C9: [get_formatter] returns a [CsvFormatter] instance for ['csv'], and it
    raises [UnsupportedFormatterException], with a message that lists the
    supported formatter names, exactly when the name is not a key of
    [formatters]; the message is [Formatter must be one of csv]. *)
Theorem get_formatter_spec (name : string) :
  BrokerageFormatterFactory.get_formatter "csv" = Ok CsvFormatterInstance /\
  ((exists msg, BrokerageFormatterFactory.get_formatter name
                = Raise (UnsupportedFormatterException msg))
   <-> ~ In name BrokerageFormatterFactory.get_supported_formatters) /\
  (~ In name BrokerageFormatterFactory.get_supported_formatters ->
   BrokerageFormatterFactory.get_formatter name
   = Raise (UnsupportedFormatterException
              ("Formatter must be one of "
               +:+ join ", " BrokerageFormatterFactory.get_supported_formatters))) /\
  (In name BrokerageFormatterFactory.get_supported_formatters ->
   BrokerageFormatterFactory.get_formatter name = Ok CsvFormatterInstance) /\
  (name <> "csv" ->
   BrokerageFormatterFactory.get_formatter name
   = Raise (UnsupportedFormatterException "Formatter must be one of csv")).
Proof.
  unfold BrokerageFormatterFactory.get_formatter.
  rewrite assoc_formatters. simpl.
  destruct (String.eqb_spec name "csv") as [->|Hne]; simpl.
  - split; [reflexivity |]. split; [split |].
    + intros [msg Hmsg]. discriminate.
    + intros H. exfalso. apply H. now left.
    + split; [| split; [reflexivity |]].
      * intros H. exfalso. apply H. now left.
      * intros H. now destruct H.
  - split; [reflexivity |]. split; [split |].
    + intros _ [H|[]]. now apply Hne.
    + intros _. eexists. reflexivity.
    + split; [reflexivity |]. split; [| reflexivity].
      intros [H|[]]. now destruct Hne.
Qed.

(** *** Further properties of the formatter *)

(** A document in the shape the formatter reads: one account with two lots
    of one ticker. *)
Definition mapping_document : pyval :=
  PDict
    [("_meta", PDict [("brokerage", PStr "vanguard")]);
     ("accounts",
       PDict
         [("1234",
            PDict
              [("account_name", PStr "Freedom");
               ("cost_basis",
                 PDict
                   [("CRLBF",
                      PDict
                        [("ticker", PStr "CRLBF");
                         ("lots",
                           PList
                             [PDict
                                [("date_acquired", PStr "12/27/2018");
                                 ("num_shares", PStr "16.0000");
                                 ("cost_per_share", PStr "39.21");
                                 ("total_cost", PStr "627.32");
                                 ("term", PStr "long")];
                              PDict
                                [("date_acquired", PStr "01/02/2020");
                                 ("num_shares", PStr "4.0000");
                                 ("cost_per_share", PStr "10.00");
                                 ("total_cost", PStr "40.00");
                                 ("term", PStr "short")]])])])])])].

Definition mapping_account : account :=
  {| account_name := PStr "Freedom";
     cost_bases :=
       [{| ticker := PStr "CRLBF";
           lots :=
             [{| date_acquired := PStr "12/27/2018";
                 num_shares := PStr "16.0000";
                 cost_per_share := PStr "39.21";
                 total_cost := PStr "627.32";
                 term := PStr "long" |};
              {| date_acquired := PStr "01/02/2020";
                 num_shares := PStr "4.0000";
                 cost_per_share := PStr "10.00";
                 total_cost := PStr "40.00";
                 term := PStr "short" |}] |}] |}.

(** An export directory: a mapping-shaped export, a file the formatter does
    not select, and an export that is not JSON. *)
Definition sample_directory : directory :=
  [("brokerage_vanguard.json", Ok mapping_document);
   ("notes.txt", Raise (Raised "JSONDecodeError"));
   ("brokerage_broken.json", Raise (Raised "JSONDecodeError"))].

(** The computations of the formatter only append rows, and rows that
    satisfy [P]. *)
Definition appends (P : row -> Prop) {A} (c : W A) : Prop :=
  forall out, exists more,
    fst (c out) = (out ++ more)%list /\ Forall P more.

Lemma mapping_document_is_export : is_export mapping_document [mapping_account].
Proof.
  eexists. split; [reflexivity |]. simpl.
  constructor; [| constructor].
  split; [reflexivity |]. eexists. split; [reflexivity |]. simpl.
  constructor; [| constructor].
  split; [reflexivity |]. eexists. split; [reflexivity |].
  repeat constructor.
Qed.

(** The strictest encoding: ASCII and nothing else. *)
Definition ascii_only : encoding := fun _ => false.

Lemma format_mapping_exports_witness :
  Forall2 (fun name accts =>
             exists v, CsvFormatter.load [("brokerage_vanguard.json", Ok mapping_document);
                                          ("notes.txt", Raise (Raised "JSONDecodeError"))]
                         name = Ok v /\ is_export v accts)
    (List.filter CsvFormatter.selected
       (map fst [("brokerage_vanguard.json", Ok mapping_document);
                 ("notes.txt", Raise (Raised "JSONDecodeError"))]))
    [[mapping_account]] /\
  all_writable ascii_only (flat_map export_rows [[mapping_account]]) /\
  CsvFormatter.format ascii_only
    [("brokerage_vanguard.json", Ok mapping_document);
     ("notes.txt", Raise (Raised "JSONDecodeError"))]
  = (map PStr CsvFormatter.HEADERS :: export_rows [mapping_account], Ok tt).
Proof.
  assert (H : Forall2 (fun name accts =>
             exists v, CsvFormatter.load [("brokerage_vanguard.json", Ok mapping_document);
                                          ("notes.txt", Raise (Raised "JSONDecodeError"))]
                         name = Ok v /\ is_export v accts)
    (List.filter CsvFormatter.selected
       (map fst [("brokerage_vanguard.json", Ok mapping_document);
                 ("notes.txt", Raise (Raised "JSONDecodeError"))]))
    [[mapping_account]]).
  { constructor; [| constructor].
    exists mapping_document. split; [reflexivity | exact mapping_document_is_export]. }
  assert (Hw : all_writable ascii_only (flat_map export_rows [[mapping_account]])).
  { repeat constructor. }
  split; [exact H |]. split; [exact Hw |].
  exact (format_mapping_exports ascii_only _ _ H Hw).
Defined.

(** An account name with a letter outside ASCII, in a locale whose encoding
    is ASCII: the row of the first lot is refused, and the CSV file is left
    with its header. *)
Lemma format_unencodable_cell_raises :
  CsvFormatter.format ascii_only
    [("brokerage_vanguard.json",
      Ok (PDict
            [("accounts",
              PDict
                [("1234",
                  PDict
                    [("account_name",
                      PStr (String "195"%char (String "137"%char "pargne")));
                     ("cost_basis",
                      PDict
                        [("CRLBF",
                          PDict
                            [("ticker", PStr "CRLBF");
                             ("lots",
                              PList
                                [PDict
                                   [("date_acquired", PStr "12/27/2018");
                                    ("num_shares", PStr "16.0000");
                                    ("cost_per_share", PStr "39.21");
                                    ("total_cost", PStr "627.32");
                                    ("term", PStr "long")]])])])])])]))]
  = ([map PStr CsvFormatter.HEADERS], Raise UnicodeEncodeError).
Proof. reflexivity. Qed.

Lemma for_each_app {A} (l1 l2 : list A) (body : A -> W unit) (out : list row) :
  for_each (l1 ++ l2) body out
  = (let! _ := for_each l1 body in for_each l2 body) out.
Proof.
  revert out. induction l1 as [|x l1 IH]; intros out; simpl.
  - reflexivity.
  - unfold bindW. destruct (body x out) as [out' [[]|e]]; [| reflexivity].
    rewrite IH. reflexivity.
Qed.

(** X2: the first exported file that cannot be loaded stops the formatter:
    when the files before it are exports of the shape above, with rows the
    encoding of the CSV file has bytes for, their rows stay in the CSV file,
    the files after it are not read, and the exception of the load is
    raised. *)
Theorem format_stops_at_unreadable_file
    (enc : encoding) (dir : directory) (good : list string) (bad : string)
    (rest : list string) (docs : list (list account)) (e : exn) :
  List.filter CsvFormatter.selected (map fst dir) = (good ++ bad :: rest)%list ->
  Forall2 (fun name accts =>
             exists v, CsvFormatter.load dir name = Ok v /\ is_export v accts)
          good docs ->
  all_writable enc (flat_map export_rows docs) ->
  CsvFormatter.load dir bad = Raise e ->
  CsvFormatter.format enc dir
  = (map PStr CsvFormatter.HEADERS :: flat_map export_rows docs, Raise e).
Proof.
  intros Hsel Hgood Hw Hbad.
  unfold CsvFormatter.format. rewrite Hsel.
  unfold bindW at 1. unfold writeheader, write. rewrite header_writable.
  simpl app.
  rewrite for_each_app. unfold bindW at 1.
  erewrite for_each_Forall2 with (rows := export_rows);
    [| | exact (Forall2_flat_map_Forall _ _ _ _ _ Hgood Hw)].
  - simpl. unfold bindW, lift. now rewrite Hbad.
  - intros name accts out [(v & Hv & He) Hrows].
    unfold bindW, lift. rewrite Hv. now apply write_data_ok.
Qed.

Lemma format_stops_at_unreadable_file_witness :
  CsvFormatter.load sample_directory "brokerage_broken.json"
  = Raise (Raised "JSONDecodeError") /\
  all_writable ascii_only (flat_map export_rows [[mapping_account]]) /\
  CsvFormatter.format ascii_only sample_directory
  = (map PStr CsvFormatter.HEADERS :: export_rows [mapping_account],
     Raise (Raised "JSONDecodeError")).
Proof.
  split; [reflexivity |].
  assert (Hw : all_writable ascii_only (flat_map export_rows [[mapping_account]])).
  { repeat constructor. }
  split; [exact Hw |].
  apply (format_stops_at_unreadable_file ascii_only sample_directory
           ["brokerage_vanguard.json"] "brokerage_broken.json" []
           [[mapping_account]]).
  - reflexivity.
  - constructor; [| constructor].
    exists mapping_document. split; [reflexivity | exact mapping_document_is_export].
  - exact Hw.
  - reflexivity.
Defined.

Lemma assoc_filter {V} (sel : string -> bool) (k : string) (d : list (string * V)) :
  sel k = true ->
  assoc k (List.filter (fun kv => sel (fst kv)) d) = assoc k d.
Proof.
  intros Hk. induction d as [|[k' v] d IH]; simpl; [reflexivity |].
  destruct (sel k') eqn:Hk'; simpl.
  - now rewrite IH.
  - destruct (String.eqb_spec k k') as [->|_]; [congruence | exact IH].
Qed.

Lemma filter_map_fst {V} (sel : string -> bool) (d : list (string * V)) :
  List.filter sel (map fst d) = map fst (List.filter (fun kv => sel (fst kv)) d).
Proof.
  induction d as [|[k v] d IH]; simpl; [reflexivity |].
  destruct (sel k); simpl; now rewrite IH.
Qed.

Lemma filter_idem {A} (f : A -> bool) (l : list A) :
  List.filter f (List.filter f l) = List.filter f l.
Proof.
  induction l as [|x l IH]; simpl; [reflexivity |].
  destruct (f x) eqn:E; simpl; [rewrite E |]; now rewrite IH.
Qed.

Lemma for_each_ext_in {A} (l : list A) (f g : A -> W unit) :
  (forall x out, In x l -> f x out = g x out) ->
  forall out, for_each l f out = for_each l g out.
Proof.
  induction l as [|x l IH]; intros H out; simpl; [reflexivity |].
  unfold bindW. rewrite (H x out) by now left.
  destruct (g x out) as [out' [[]|e]]; [| reflexivity].
  apply IH. intros y o Hy. apply H. now right.
Qed.

(** X3: the files whose names do not start with [brokerage] or do not end
    with [.json] have no effect on the CSV file or on the outcome. *)
Theorem format_ignores_other_files (enc : encoding) (dir : directory) :
  CsvFormatter.format enc dir
  = CsvFormatter.format enc
      (List.filter (fun entry => CsvFormatter.selected (fst entry)) dir).
Proof.
  unfold CsvFormatter.format.
  rewrite (filter_map_fst CsvFormatter.selected
             (List.filter (fun entry => CsvFormatter.selected (fst entry)) dir)).
  rewrite filter_map_fst.
  rewrite filter_idem.
  unfold bindW at 1 3. unfold writeheader, write. rewrite header_writable.
  simpl app.
  apply for_each_ext_in. intros name out Hin.
  unfold bindW, lift, CsvFormatter.load.
  rewrite assoc_filter; [reflexivity |].
  apply in_map_iff in Hin as ([k v] & <- & Hkv).
  now apply filter_In in Hkv.
Qed.

Lemma appends_lift (P : row -> Prop) {A} (r : result A) : appends P (lift r).
Proof. intros out. exists []. simpl. now rewrite app_nil_r. Qed.

Lemma appends_write (P : row -> Prop) (enc : encoding) (r : row) :
  P r -> appends P (write enc r).
Proof.
  intros Hr out. unfold write. destruct (writable_row enc r); simpl.
  - exists [r]. split; [reflexivity | now constructor].
  - exists []. now rewrite app_nil_r.
Qed.

Lemma appends_bind (P : row -> Prop) {A B} (c : W A) (k : A -> W B) :
  appends P c -> (forall a, appends P (k a)) -> appends P (bindW c k).
Proof.
  intros Hc Hk out. unfold bindW.
  destruct (Hc out) as (m1 & E1 & F1).
  destruct (c out) as [out' [a|e]]; simpl in E1; subst out'.
  - destruct (Hk a (out ++ m1)%list) as (m2 & E2 & F2).
    exists (m1 ++ m2)%list. rewrite E2, app_assoc.
    split; [reflexivity | now apply Forall_app].
  - exists m1. now split.
Qed.

Lemma appends_for_each (P : row -> Prop) {A} (l : list A) (body : A -> W unit) :
  (forall x, appends P (body x)) -> appends P (for_each l body).
Proof.
  intros Hbody. induction l as [|x l IH]; simpl.
  - intros out. exists []. simpl. now rewrite app_nil_r.
  - apply appends_bind; [apply Hbody | intros _; exact IH].
Qed.

Lemma appends_writerow (enc : encoding) (fieldnames : list string)
    (rowdict : list (string * pyval)) :
  appends (fun r => length r = length fieldnames)
          (writerow enc fieldnames rowdict).
Proof.
  intros out. unfold writerow, dict_to_list, lift, bindW, write.
  destruct (forallb _ rowdict); simpl.
  - destruct (writable_row enc _); simpl.
    + eexists [_]. split; [reflexivity |]. constructor; [| constructor].
      apply length_map.
    + exists []. now rewrite app_nil_r.
  - exists []. now rewrite app_nil_r.
Qed.

Lemma appends_write_data (enc : encoding) (data : pyval) :
  appends (fun r => length r = 7%nat) (CsvFormatter.write_data enc data).
Proof.
  unfold CsvFormatter.write_data.
  apply appends_bind; [apply appends_lift |]. intros accounts.
  apply appends_for_each. intros a. unfold CsvFormatter.write_account.
  apply appends_bind; [apply appends_lift |]. intros cbs.
  apply appends_for_each. intros cb. unfold CsvFormatter.write_cost_basis.
  apply appends_bind; [apply appends_lift |]. intros lots.
  apply appends_for_each. intros lot. unfold CsvFormatter.write_lot.
  do 7 (apply appends_bind; [apply appends_lift |]; intros ?).
  apply (appends_writerow enc CsvFormatter.HEADERS).
Qed.

(** X4: whatever the export directory holds, and whether the call returns or
    raises, the CSV file begins with the header row and every row after it
    has the seven columns of the header. *)
Theorem format_rows_invariant (enc : encoding) (dir : directory) :
  exists rows,
    fst (CsvFormatter.format enc dir) = map PStr CsvFormatter.HEADERS :: rows /\
    Forall (fun r => length r = 7%nat) rows.
Proof.
  unfold CsvFormatter.format.
  assert (H : appends (fun r => length r = 7%nat)
                (for_each (List.filter CsvFormatter.selected (map fst dir))
                   (fun filename =>
                      let! data := lift (CsvFormatter.load dir filename) in
                      CsvFormatter.write_data enc data))).
  { apply appends_for_each. intros name.
    apply appends_bind; [apply appends_lift |]. apply appends_write_data. }
  unfold bindW at 1. unfold writeheader, write. rewrite header_writable.
  simpl app.
  destruct (H [map PStr CsvFormatter.HEADERS]) as (rows & E & F).
  exists rows. now split.
Qed.

(** X5: a lot is written whole or not at all.  On mappings, the loop body
    either appends one row and returns, or appends nothing and raises:
    [KeyError] for a column name that the account, the entry or the lot
    lacks, or [UnicodeEncodeError] for a row with a cell that the encoding of
    the CSV file has no bytes for. *)
Theorem write_lot_all_or_nothing
    (enc : encoding) (ad cd ld : list (string * pyval)) (out : list row) :
  (exists r, writable_row enc r = true /\
             CsvFormatter.write_lot enc (PDict ad) (PDict cd) (PDict ld) out
             = ((out ++ [r])%list, Ok tt)) \/
  (exists k, In k CsvFormatter.HEADERS /\
             (assoc k ad = None \/ assoc k cd = None \/ assoc k ld = None) /\
             CsvFormatter.write_lot enc (PDict ad) (PDict cd) (PDict ld) out
             = (out, Raise (KeyError k))) \/
  (exists r, writable_row enc r = false /\
             CsvFormatter.write_lot enc (PDict ad) (PDict cd) (PDict ld) out
             = (out, Raise UnicodeEncodeError)).
Proof.
  unfold CsvFormatter.write_lot, bindW, lift, getitem.
  destruct (assoc "ticker" cd) eqn:E1;
    [| right; left; exists "ticker"; simpl; tauto].
  destruct (assoc "date_acquired" ld) eqn:E2;
    [| right; left; exists "date_acquired"; simpl; tauto].
  destruct (assoc "num_shares" ld) eqn:E3;
    [| right; left; exists "num_shares"; simpl; tauto].
  destruct (assoc "cost_per_share" ld) eqn:E4;
    [| right; left; exists "cost_per_share"; simpl; tauto].
  destruct (assoc "total_cost" ld) eqn:E5;
    [| right; left; exists "total_cost"; simpl; tauto].
  destruct (assoc "account_name" ad) eqn:E6;
    [| right; left; exists "account_name"; simpl; tauto].
  destruct (assoc "term" ld) eqn:E7;
    [| right; left; exists "term"; simpl; tauto].
  unfold writerow, bindW, lift, write. rewrite dict_to_list_lot.
  match goal with
  | |- context [writable_row enc ?r] => destruct (writable_row enc r) eqn:Hw
  end.
  - left. eexists. split; [exact Hw | reflexivity].
  - right; right. eexists. split; [exact Hw | reflexivity].
Qed.

Lemma append_cons (a : ascii) (s t : string) :
  String a s +:+ t = String a (s +:+ t).
Proof. reflexivity. Qed.

Lemma append_empty (t : string) : EmptyString +:+ t = t.
Proof. reflexivity. Qed.

Lemma append_assoc (s t u : string) : (s +:+ t) +:+ u = s +:+ (t +:+ u).
Proof.
  induction s as [|a s IH]; [reflexivity |].
  now rewrite !append_cons, IH.
Qed.

Lemma length_append (s t : string) :
  String.length (s +:+ t) = (String.length s + String.length t)%nat.
Proof.
  induction s as [|a s IH]; [reflexivity |].
  rewrite append_cons. simpl. now rewrite IH.
Qed.

Lemma startswith_spec (s p : string) :
  startswith s p = true <-> exists r, s = p +:+ r.
Proof.
  revert s. induction p as [|c p IH]; intros s; simpl.
  - split; [intros _; now exists s | intros _; now destruct s].
  - destruct s as [|d s]; simpl.
    + split; [discriminate | intros [r Hr]; discriminate].
    + rewrite andb_true_iff, IH. split.
      * intros [Hc [r ->]]. apply Ascii.eqb_eq in Hc. subst d. now exists r.
      * intros [r Hr]. rewrite append_cons in Hr. injection Hr as -> ->.
        split; [apply Ascii.eqb_refl | now exists r].
Qed.

Lemma substring_all (s : string) : substring 0 (String.length s) s = s.
Proof. induction s as [|a s IH]; simpl; [reflexivity | now rewrite IH]. Qed.

Lemma substring_skip (r s : string) (m : nat) :
  substring (String.length r) m (r +:+ s) = substring 0 m s.
Proof. induction r as [|a r IH]; [reflexivity | rewrite append_cons; exact IH]. Qed.

Lemma substring_split (s : string) (k : nat) :
  (k <= String.length s)%nat ->
  s = substring 0 k s +:+ substring k (String.length s - k) s.
Proof.
  revert k. induction s as [|a s IH]; intros k Hk.
  - simpl in Hk. assert (k = 0%nat) as -> by lia. reflexivity.
  - destruct k as [|k].
    + replace (String.length (String a s) - 0)%nat
        with (String.length (String a s)) by lia.
      now rewrite substring_all.
    + simpl in Hk. simpl. rewrite append_cons. f_equal. apply IH. lia.
Qed.

Lemma endswith_spec (s suf : string) :
  endswith s suf = true <-> exists r, s = r +:+ suf.
Proof.
  unfold endswith. rewrite andb_true_iff, Nat.leb_le, String.eqb_eq. split.
  - intros [Hle Hsub]. exists (substring 0 (String.length s - String.length suf) s).
    pose proof (substring_split s (String.length s - String.length suf)) as H.
    replace (String.length s - (String.length s - String.length suf))%nat
      with (String.length suf) in H by lia.
    rewrite Hsub in H. apply H. lia.
  - intros [r ->]. rewrite length_append. split; [lia |].
    replace (String.length r + String.length suf - String.length suf)%nat
      with (String.length r) by lia.
    rewrite substring_skip. apply substring_all.
Qed.

(** X6: the exported files the formatter reads are exactly those named
    [brokerage], then anything, then [.json]; the file it writes,
    [brokerage.csv], is not one of them. *)
Theorem selected_spec (f : string) :
  (CsvFormatter.selected f = true
   <-> exists middle, f = "brokerage" +:+ middle +:+ ".json") /\
  CsvFormatter.selected (PREFIX +:+ ".csv") = false.
Proof.
  split; [| reflexivity].
  unfold CsvFormatter.selected, PREFIX.
  rewrite andb_true_iff, startswith_spec, endswith_spec. split.
  - intros [[r Hr] [r' Hr']]. subst f.
    do 9 (destruct r' as [|? r'];
          [ rewrite append_empty in Hr'; discriminate
          | rewrite append_cons in Hr';
            rewrite (append_cons _ _ r) in Hr' || idtac;
            injection Hr' as <- Hr' ]).
    rewrite append_empty in Hr'. subst r. now exists r'.
  - intros [m ->]. split; [now eexists |].
    exists ("brokerage" +:+ m). now rewrite append_assoc.
Qed.

End Formatter.

(** ** common/redis.py *)

Module Redis.
Import Py PyNotations.

(** Byte strings.  A [string] of Rocq is a sequence of 8-bit characters; a
    Python [str] is kept as its UTF-8 encoding, which makes
    [.encode('utf-8')] the identity. *)
Definition bytes : Type := string.

Definition encode_utf8 (s : string) : bytes := s.

Section RedisStore.

(** The values [save] distinguishes, and the library functions it calls. *)
Variable DataFrame : Type.
Variable PyObject : Type.

(** [value.to_parquet(buffer, compression='gzip')] and reading the buffer *)
Variable to_parquet_gzip : DataFrame -> result bytes.
(** [pd.read_parquet(io.BytesIO(b))] *)
Variable read_parquet : bytes -> result DataFrame.
(** [json.dumps(value, cls=plotly.utils.PlotlyJSONEncoder)] *)
Variable plotly_json_dumps : PyObject -> result string.
(** [json.loads(b)] *)
Variable json_loads : bytes -> result pyval.
(** [hashlib.sha512(b).hexdigest()] *)
Variable sha512_hexdigest : bytes -> string.

Inductive value : Type :=
| VDataFrame (df : DataFrame)
| VObject (o : PyObject).

(** What [load] returns. *)
Inductive loaded : Type :=
| LDataFrame (df : DataFrame)
| LJson (j : pyval).

(** The Redis database [RedisStore.r]: byte strings under string keys. *)
Abbreviation store := (gmap string bytes).

Definition _hash (serialized_obj : bytes) : string :=
  sha512_hexdigest serialized_obj.

Definition value_key (hash_key : string) : string :=
  "_dash_aio_components_value_" +:+ hash_key.

Definition type_key (hash_key : string) : string :=
  "_dash_aio_components_type_" +:+ hash_key.

(** [r.set(key, v)] *)
Definition set (key : string) (v : bytes) (r : store) : store := <[key := v]> r.

(** [r.get(key)]: [None] for a key that is not set. *)
Definition get (key : string) (r : store) : option bytes := r !! key.

(** [RedisStore.save]: the database after the call and the returned key.
    Nothing is written when the serialization raises. *)
Definition save (v : value) (r : store) : store * result string :=
  let serialized :=
    match v with
    | VDataFrame df =>
        let? df_as_bytes := to_parquet_gzip df in
        let hash_key := _hash df_as_bytes in
        let type_ := "pd.DataFrame" in
        let serialized_value := df_as_bytes in
        Ok (hash_key, type_, serialized_value)
    | VObject o =>
        let? dumped := plotly_json_dumps o in
        let serialized_value := encode_utf8 dumped in
        let hash_key := _hash serialized_value in
        let type_ := "json-serialized" in
        Ok (hash_key, type_, serialized_value)
    end in
  match serialized with
  | Ok (hash_key, type_, serialized_value) =>
      let r1 := set (value_key hash_key) serialized_value r in
      let r2 := set (type_key hash_key) (encode_utf8 type_) r1 in
      (r2, Ok hash_key)
  | Raise e => (r, Raise e)
  end.

(** [RedisStore.load].  The handler of the [try] block evaluates
    [data_type - hash_key], bytes minus a string, which raises [TypeError]
    in place of the exception it caught. *)
Definition load (hash_key : string) (r : store) : result loaded :=
  let data_type := get (type_key hash_key) r in
  let serialized_value := get (value_key hash_key) r in
  let attempt :=
    if decide (data_type = Some "pd.DataFrame") then
      (* [io.BytesIO(None)] is an empty buffer *)
      let? df := read_parquet (default EmptyString serialized_value) in
      Ok (LDataFrame df)
    else
      match serialized_value with
      | Some b => let? j := json_loads b in Ok (LJson j)
      | None => Raise TypeError
      end in
  match attempt with
  | Ok v => Ok v
  | Raise _ => Raise TypeError
  end.

(** The serialized form of a value and its type tag, as [save] computes
    them. *)
Definition serialized_form (v : value) : result bytes :=
  match v with
  | VDataFrame df => to_parquet_gzip df
  | VObject o => let? dumped := plotly_json_dumps o in Ok (encode_utf8 dumped)
  end.

Definition type_tag (v : value) : bytes :=
  match v with
  | VDataFrame _ => "pd.DataFrame"
  | VObject _ => "json-serialized"
  end.

(** *** Properties of the store *)

Lemma value_key_ne_type_key (h h' : string) : value_key h <> type_key h'.
Proof. unfold value_key, type_key. cbv [String.append]. congruence. Qed.

Lemma save_serialized (v : value) (r : store) (b : bytes) :
  serialized_form v = Ok b ->
  save v r
  = (<[type_key (sha512_hexdigest b) := type_tag v]>
       (<[value_key (sha512_hexdigest b) := b]> r),
     Ok (sha512_hexdigest b)).
Proof.
  unfold save, serialized_form, set, _hash, encode_utf8.
  destruct v as [df|o]; simpl.
  - intros ->. reflexivity.
  - destruct (plotly_json_dumps o) as [s|e]; simpl; [| discriminate].
    intros [= ->]. reflexivity.
Qed.

Lemma save_raises (v : value) (r : store) (e : exn) :
  serialized_form v = Raise e -> save v r = (r, Raise e).
Proof.
  unfold save, serialized_form.
  destruct v as [df|o]; simpl.
  - intros ->. reflexivity.
  - destruct (plotly_json_dumps o) as [s|e']; simpl; [discriminate |].
    intros [= ->]. reflexivity.
Qed.




(** *** Further properties of the store *)

Lemma value_key_inj (h h' : string) : value_key h = value_key h' -> h = h'.
Proof. unfold value_key. cbv [String.append]. congruence. Qed.

Lemma type_key_inj (h h' : string) : type_key h = type_key h' -> h = h'.
Proof. unfold type_key. cbv [String.append]. congruence. Qed.

(** X7: a value that cannot be serialized is not stored: [save] raises the
    exception of the serializer and leaves the database as it was. *)
Theorem save_unserializable (v : value) (r : store) (e : exn) :
  serialized_form v = Raise e ->
  save v r = (r, Raise e).
Proof.
  intros Hraise. unfold save.
  destruct v as [df|o]; simpl in *.
  - now rewrite Hraise.
  - destruct (plotly_json_dumps o) as [dumped|e']; simpl in *;
      [discriminate |].
    now injection Hraise as ->.
Qed.

(** X8: saving a value a second time changes nothing: the database after the
    second [save] is the database after the first, and the key is the
    same. *)
Theorem save_idempotent (v : value) (r : store) :
  save v (fst (save v r)) = save v r.
Proof.
  destruct (serialized_form v) as [b|e] eqn:Hb.
  - rewrite !(save_serialized v _ b Hb). simpl. f_equal.
    apply map_eq. intros k. rewrite !lookup_insert.
    repeat case_decide; reflexivity.
  - now rewrite !(save_raises v _ e Hb).
Qed.

(** X9: [save] touches the entries of the key it returns and no other: what
    [load] gives for any other key is what it gave before. *)
Theorem save_keeps_other_keys (v : value) (r : store) (h : string) :
  snd (save v r) <> Ok h ->
  load h (fst (save v r)) = load h r.
Proof.
  destruct (serialized_form v) as [b|e] eqn:Hb.
  - rewrite (save_serialized v r b Hb). simpl. intros Hne.
    assert (Hh : sha512_hexdigest b <> h) by congruence.
    unfold load, get.
    rewrite !lookup_insert_ne; [reflexivity | | | |].
    + intros E. now apply value_key_inj in E.
    + intros E. now apply (value_key_ne_type_key h (sha512_hexdigest b)).
    + intros E. now apply (value_key_ne_type_key (sha512_hexdigest b) h).
    + intros E. now apply type_key_inj in E.
  - now rewrite (save_raises v r e Hb).
Qed.

(** X10: two values with different digests can be saved in either order: the
    database is the same. *)
Theorem save_commutes (v1 v2 : value) (r : store) (b1 b2 : bytes) :
  serialized_form v1 = Ok b1 ->
  serialized_form v2 = Ok b2 ->
  sha512_hexdigest b1 <> sha512_hexdigest b2 ->
  fst (save v2 (fst (save v1 r))) = fst (save v1 (fst (save v2 r))).
Proof.
  intros H1 H2 Hne.
  rewrite (save_serialized v1 r b1 H1), (save_serialized v2 r b2 H2). simpl.
  rewrite (save_serialized v1 _ b1 H1), (save_serialized v2 _ b2 H2). simpl.
  pose proof (value_key_ne_type_key (sha512_hexdigest b1) (sha512_hexdigest b2)).
  pose proof (value_key_ne_type_key (sha512_hexdigest b2) (sha512_hexdigest b1)).
  pose proof (value_key_ne_type_key (sha512_hexdigest b1) (sha512_hexdigest b1)).
  pose proof (value_key_ne_type_key (sha512_hexdigest b2) (sha512_hexdigest b2)).
  pose proof (value_key_inj (sha512_hexdigest b1) (sha512_hexdigest b2)).
  pose proof (type_key_inj (sha512_hexdigest b1) (sha512_hexdigest b2)).
  apply map_eq. intros k. rewrite !lookup_insert.
  repeat case_decide; try reflexivity; subst; exfalso; eauto.
Qed.

(** X11: [load] never passes on the exception that made it fail: whatever
    goes wrong -- a key that was never saved, bytes Parquet or JSON cannot
    read -- the handler of the [try] block raises [TypeError] itself; and a
    key without entries does make [load] fail. *)
Theorem load_raises_TypeError (h : string) (r : store) :
  (forall e, load h r = Raise e -> e = TypeError) /\
  (r !! type_key h = None -> r !! value_key h = None ->
   load h r = Raise TypeError).
Proof.
  split.
  - intros e. unfold load.
    destruct (decide _).
    + destruct (read_parquet _); simpl; congruence.
    + destruct (get (value_key h) r); [| congruence].
      destruct (json_loads _); simpl; congruence.
  - intros Ht Hv. unfold load, get. rewrite Ht, Hv.
    rewrite decide_False by discriminate. reflexivity.
Qed.

End RedisStore.

Arguments VDataFrame {DataFrame PyObject} df.
Arguments VObject {DataFrame PyObject} o.
Arguments LDataFrame {DataFrame} df.
Arguments LJson {DataFrame} j.

(** A small instance of the libraries, to run the store on: data frames are
    texts, Parquet puts a magic number in front of them, the other values
    are the booleans with their JSON literals, and the digest of a byte
    string is its length in unary. *)
Module Instance.

Definition to_parquet (df : string) : result bytes := Ok ("PAR1" +:+ df).

Definition read_parquet (b : bytes) : result string :=
  if startswith b "PAR1" then Ok (substring 4 (String.length b - 4) b)
  else Raise (Raised "ArrowInvalid").

Definition dumps (o : bool) : result string :=
  Ok (if o then "true" else "false").

Definition loads (b : bytes) : result pyval :=
  if String.eqb b "true" then Ok (PBool true)
  else if String.eqb b "false" then Ok (PBool false)
  else Raise (Raised "JSONDecodeError").

Fixpoint digest (b : bytes) : string :=
  match b with
  | EmptyString => EmptyString
  | String _ b' => String "1" (digest b')
  end.

End Instance.



(** A data frame reduced to its column labels.  Parquet wants string column
    names: for any other label [to_parquet] raises [ValueError]. *)
Module Labelled.

Definition frame : Type := list pyval.

Definition is_str (v : pyval) : bool :=
  match v with
  | PStr _ => true
  | _ => false
  end.

Definition to_parquet (df : frame) : result bytes :=
  if forallb is_str df then Ok ("PAR1" +:+ join "," (map (fun _ => "c") df))
  else Raise ValueError.

Definition read_parquet (b : bytes) : result frame :=
  Raise (Raised "ArrowInvalid").

End Labelled.


Lemma save_unserializable_witness :
  serialized_form string bool (fun _ => Raise (Raised "ArrowInvalid"))
    Instance.dumps (VDataFrame "a,b") = Raise (Raised "ArrowInvalid") /\
  save string bool (fun _ => Raise (Raised "ArrowInvalid")) Instance.dumps
    Instance.digest (VDataFrame "a,b") ∅
  = (∅, Raise (Raised "ArrowInvalid")).
Proof.
  split; [reflexivity |].
  apply (save_unserializable string bool (fun _ => Raise (Raised "ArrowInvalid"))
           Instance.dumps Instance.digest (VDataFrame "a,b") ∅).
  reflexivity.
Defined.

Lemma save_keeps_other_keys_witness :
  snd (save string bool Instance.to_parquet Instance.dumps Instance.digest
         (VObject true) ∅) <> Ok "1111111" /\
  load string Instance.read_parquet Instance.loads "1111111"
    (fst (save string bool Instance.to_parquet Instance.dumps Instance.digest
            (VObject true) ∅))
  = load string Instance.read_parquet Instance.loads "1111111" ∅.
Proof.
  assert (H : snd (save string bool Instance.to_parquet Instance.dumps
                     Instance.digest (VObject true) ∅) <> Ok "1111111")
    by discriminate.
  split; [exact H |].
  exact (save_keeps_other_keys string bool Instance.to_parquet
           Instance.read_parquet Instance.dumps Instance.loads Instance.digest
           (VObject true) ∅ "1111111" H).
Defined.

Lemma save_commutes_witness :
  Instance.digest "PAR1a,b" <> Instance.digest "true" /\
  fst (save string bool Instance.to_parquet Instance.dumps Instance.digest
         (VObject true)
         (fst (save string bool Instance.to_parquet Instance.dumps
                 Instance.digest (VDataFrame "a,b") ∅)))
  = fst (save string bool Instance.to_parquet Instance.dumps Instance.digest
           (VDataFrame "a,b")
           (fst (save string bool Instance.to_parquet Instance.dumps
                   Instance.digest (VObject true) ∅))).
Proof.
  assert (H : Instance.digest "PAR1a,b" <> Instance.digest "true") by discriminate.
  split; [exact H |].
  exact (save_commutes string bool Instance.to_parquet Instance.dumps
           Instance.digest (VDataFrame "a,b") (VObject true) ∅
           "PAR1a,b" "true" eq_refl eq_refl H).
Defined.

Lemma load_raises_TypeError_witness :
  load string Instance.read_parquet Instance.loads "1111" ∅ = Raise TypeError.
Proof.
  exact (proj2 (load_raises_TypeError string Instance.read_parquet
                  Instance.loads "1111" ∅) eq_refl eq_refl).
Defined.

End Redis.

(** ** cli/dashboard/commands.py *)

Module Cli.
Import Py PyNotations.

(** What a path of the file system names. *)
Inductive node : Type :=
| File (content : string)
| Directory.

(** The calls [get_yaml] makes to the operating system, in order. *)
Inductive syscall : Type :=
| Exists (path : string)
| Open (path : string).

Section GetYaml.

(** The paths of [funance.common.paths] and [yaml.safe_load] on the text of
    a file. *)
Variables FORECAST_DIST_FILE FORECAST_FILE INVEST_DIST_FILE INVEST_FILE : string.
Variable safe_load : string -> result pyval.

Variable fs : gmap string node.

(** [os.path.exists(path)] *)
Definition path_exists (path : string) : bool :=
  match fs !! path with
  | Some _ => true
  | None => false
  end.

(** [open(path, "r")] followed by [yaml.safe_load(stream)] *)
Definition open_and_load (path : string) : result pyval :=
  match fs !! path with
  | Some (File content) => safe_load content
  | Some Directory => Raise (IsADirectoryError path)
  | None => Raise (FileNotFoundError path)
  end.

Definition get_watch_files : list string :=
  [FORECAST_DIST_FILE; FORECAST_FILE; INVEST_DIST_FILE; INVEST_FILE].

(** [get_yaml]: the system calls made and the outcome.  The local variable
    [spec_file] is unbound ([None]) until one of the two tests binds it. *)
Definition get_yaml (type_ : pyval) : list syscall * result pyval :=
  let '(calls, spec_file) :=
    if eq_str type_ "forecast"
    then ([Exists FORECAST_FILE],
          Some (if path_exists FORECAST_FILE then FORECAST_FILE
                else FORECAST_DIST_FILE))
    else ([], None) in
  let '(calls, spec_file) :=
    if eq_str type_ "invest"
    then ((calls ++ [Exists INVEST_FILE])%list,
          Some (if path_exists INVEST_FILE then INVEST_FILE
                else INVEST_DIST_FILE))
    else (calls, spec_file) in
  match spec_file with
  | None => (calls, Raise (UnboundLocalError "spec_file"))
  | Some path => ((calls ++ [Open path])%list, open_and_load path)
  end.

(** *** Properties of [get_yaml] *)

(** C10: for ['forecast'] and for ['invest'] the user's file is loaded when
    it exists and the distributed file otherwise; for every other argument
    the call raises and has opened, and looked for, no file. *)
Theorem get_yaml_spec :
  (forall content,
     fs !! FORECAST_FILE = Some (File content) ->
     snd (get_yaml (PStr "forecast")) = safe_load content) /\
  (forall content,
     fs !! FORECAST_FILE = None ->
     fs !! FORECAST_DIST_FILE = Some (File content) ->
     snd (get_yaml (PStr "forecast")) = safe_load content) /\
  (forall content,
     fs !! INVEST_FILE = Some (File content) ->
     snd (get_yaml (PStr "invest")) = safe_load content) /\
  (forall content,
     fs !! INVEST_FILE = None ->
     fs !! INVEST_DIST_FILE = Some (File content) ->
     snd (get_yaml (PStr "invest")) = safe_load content) /\
  (forall type_,
     type_ <> PStr "forecast" -> type_ <> PStr "invest" ->
     get_yaml type_ = ([], Raise (UnboundLocalError "spec_file"))).
Proof.
  unfold get_yaml, path_exists, open_and_load. simpl.
  repeat split.
  - intros content H. now rewrite !H.
  - intros content H1 H2. now rewrite H1, H2.
  - intros content H. now rewrite !H.
  - intros content H1 H2. now rewrite H1, H2.
  - intros type_ Hf Hi.
    assert (E : forall s, type_ <> PStr s -> eq_str type_ s = false).
    { intros s Hs. destruct type_; try reflexivity. simpl.
      destruct (String.eqb_spec s0 s); [subst; contradiction | reflexivity]. }
    now rewrite (E _ Hf), (E _ Hi).
Qed.

(** *** The [dashboard] command and further properties *)

(** [funance.dashboard.dash_app.create_app] and the [run_server] method of
    the application it returns. *)
Variable App : Type.
Variable create_app : pyval -> pyval -> result App.
Variable run_server : App -> bool -> list string -> result unit.

(** What the [dashboard] command does, in order. *)
Inductive step : Type :=
| Sys (c : syscall)
| CreateApp (forecast_spec invest_spec : pyval)
| RunServer (debug : bool) (extra_files : list string).

(** The [dashboard] command: the steps taken and the outcome. *)
Definition dashboard : list step * result unit :=
  let '(calls1, loaded1) := get_yaml (PStr "forecast") in
  match loaded1 with
  | Raise e => (map Sys calls1, Raise e)
  | Ok forecast_spec =>
      let '(calls2, loaded2) := get_yaml (PStr "invest") in
      match loaded2 with
      | Raise e => (map Sys (calls1 ++ calls2), Raise e)
      | Ok invest_spec =>
          match create_app forecast_spec invest_spec with
          | Raise e =>
              ((map Sys (calls1 ++ calls2)
                  ++ [CreateApp forecast_spec invest_spec])%list,
               Raise e)
          | Ok app =>
              ((map Sys (calls1 ++ calls2)
                  ++ [CreateApp forecast_spec invest_spec;
                      RunServer true get_watch_files])%list,
               run_server app true get_watch_files)
          end
      end
  end.

Definition path_of (c : syscall) : string :=
  match c with
  | Exists path => path
  | Open path => path
  end.

Definition is_open (c : syscall) : bool :=
  match c with
  | Open _ => true
  | Exists _ => false
  end.

(** X12: when neither the user's file nor the distributed file exists,
    [get_yaml] looks for the first, tries to open the second and raises
    [FileNotFoundError] for it. *)
Theorem get_yaml_no_file :
  (fs !! FORECAST_FILE = None -> fs !! FORECAST_DIST_FILE = None ->
   get_yaml (PStr "forecast")
   = ([Exists FORECAST_FILE; Open FORECAST_DIST_FILE],
      Raise (FileNotFoundError FORECAST_DIST_FILE))) /\
  (fs !! INVEST_FILE = None -> fs !! INVEST_DIST_FILE = None ->
   get_yaml (PStr "invest")
   = ([Exists INVEST_FILE; Open INVEST_DIST_FILE],
      Raise (FileNotFoundError INVEST_DIST_FILE))).
Proof.
  unfold get_yaml, path_exists, open_and_load. simpl.
  split; intros H1 H2; now rewrite H1, H2.
Qed.

(** X13: a user's path that exists but is a directory is not replaced by the
    distributed file: [get_yaml] opens it and raises [IsADirectoryError],
    whether or not the distributed file is there. *)
Theorem get_yaml_directory :
  (fs !! FORECAST_FILE = Some Directory ->
   get_yaml (PStr "forecast")
   = ([Exists FORECAST_FILE; Open FORECAST_FILE],
      Raise (IsADirectoryError FORECAST_FILE))) /\
  (fs !! INVEST_FILE = Some Directory ->
   get_yaml (PStr "invest")
   = ([Exists INVEST_FILE; Open INVEST_FILE],
      Raise (IsADirectoryError INVEST_FILE))).
Proof.
  unfold get_yaml, path_exists, open_and_load. simpl.
  split; intros H; now rewrite !H.
Qed.

(** X14: whatever its argument, [get_yaml] only looks for and opens files of
    [get_watch_files], and it opens at most one file. *)
Theorem get_yaml_calls_watched (type_ : pyval) :
  Forall (fun c => In (path_of c) get_watch_files) (fst (get_yaml type_)) /\
  (length (List.filter is_open (fst (get_yaml type_))) <= 1)%nat.
Proof.
  unfold get_yaml, get_watch_files.
  destruct (eq_str type_ "forecast"), (eq_str type_ "invest");
    repeat match goal with
           | |- context [if path_exists ?p then _ else _] =>
               destruct (path_exists p)
           end;
    simpl; (split; [repeat constructor; simpl; tauto | lia]).
Qed.

(** X15: the server is run only on an application created from both loaded
    specs, in debug mode and watching the four files; when a spec cannot be
    loaded the command raises and creates no application. *)
Theorem dashboard_runs_loaded_specs :
  (forall debug extra_files,
     In (RunServer debug extra_files) (fst dashboard) ->
     debug = true /\ extra_files = get_watch_files /\
     exists forecast_spec invest_spec,
       snd (get_yaml (PStr "forecast")) = Ok forecast_spec /\
       snd (get_yaml (PStr "invest")) = Ok invest_spec /\
       In (CreateApp forecast_spec invest_spec) (fst dashboard)) /\
  (forall e,
     snd (get_yaml (PStr "forecast")) = Raise e \/
     snd (get_yaml (PStr "invest")) = Raise e ->
     (exists e', snd dashboard = Raise e') /\
     forall step, In step (fst dashboard) -> exists c, step = Sys c).
Proof.
  unfold dashboard.
  destruct (get_yaml (PStr "forecast")) as [calls1 [f|e1]];
    destruct (get_yaml (PStr "invest")) as [calls2 [i|e2]]; simpl.
  - destruct (create_app f i) as [app|e']; simpl; split.
    + intros debug files Hin. apply in_app_or in Hin as [Hin|Hin].
      * apply in_map_iff in Hin as (c & Hc & _). discriminate.
      * destruct Hin as [Hin|[Hin|[]]]; [discriminate |].
        injection Hin as <- <-. split; [reflexivity |]. split; [reflexivity |].
        exists f, i. split; [reflexivity |]. split; [reflexivity |].
        apply in_or_app. right. now left.
    + intros e [H|H]; discriminate.
    + intros debug files Hin. apply in_app_or in Hin as [Hin|Hin].
      * apply in_map_iff in Hin as (c & Hc & _). discriminate.
      * destruct Hin as [Hin|[]]. discriminate.
    + intros e [H|H]; discriminate.
  - split.
    + intros debug files Hin. apply in_map_iff in Hin as (c & Hc & _).
      discriminate.
    + intros e _. split; [eauto |]. intros st Hin.
      apply in_map_iff in Hin as (c & <- & _). eauto.
  - split.
    + intros debug files Hin. apply in_map_iff in Hin as (c & Hc & _).
      discriminate.
    + intros e _. split; [eauto |]. intros st Hin.
      apply in_map_iff in Hin as (c & <- & _). eauto.
  - split.
    + intros debug files Hin. apply in_map_iff in Hin as (c & Hc & _).
      discriminate.
    + intros e _. split; [eauto |]. intros st Hin.
      apply in_map_iff in Hin as (c & <- & _). eauto.
Qed.

End GetYaml.

Module Instance.

Definition fs : gmap string node :=
  <["forecast.yml" := File "accounts: []"]>
    (<["forecast.dist.yml" := File "chart_spec: []"]>
       (<["invest.dist.yml" := File "invest: []"]> ∅)).

Definition safe_load (content : string) : result pyval :=
  Ok (PDict [(substring 0 (String.length content - 4) content, PList [])]).

End Instance.

Lemma get_yaml_spec_witness :
  snd (get_yaml "forecast.dist.yml" "forecast.yml" "invest.dist.yml" "invest.yml"
         Instance.safe_load Instance.fs (PStr "forecast"))
  = Ok (PDict [("accounts", PList [])]) /\
  snd (get_yaml "forecast.dist.yml" "forecast.yml" "invest.dist.yml" "invest.yml"
         Instance.safe_load Instance.fs (PStr "invest"))
  = Ok (PDict [("invest", PList [])]) /\
  get_yaml "forecast.dist.yml" "forecast.yml" "invest.dist.yml" "invest.yml"
    Instance.safe_load Instance.fs (PStr "budget")
  = ([], Raise (UnboundLocalError "spec_file")).
Proof.
  pose proof (get_yaml_spec "forecast.dist.yml" "forecast.yml" "invest.dist.yml"
                "invest.yml" Instance.safe_load Instance.fs)
    as (Hf & _ & _ & Hi & Hother).
  split; [| split].
  - exact (Hf "accounts: []" eq_refl).
  - exact (Hi "invest: []" eq_refl eq_refl).
  - apply Hother; discriminate.
Defined.

Lemma get_yaml_no_file_witness :
  get_yaml "forecast.dist.yml" "forecast.yml" "invest.dist.yml" "invest.yml"
    Instance.safe_load ∅ (PStr "forecast")
  = ([Exists "forecast.yml"; Open "forecast.dist.yml"],
     Raise (FileNotFoundError "forecast.dist.yml")).
Proof.
  exact (proj1 (get_yaml_no_file "forecast.dist.yml" "forecast.yml"
                  "invest.dist.yml" "invest.yml" Instance.safe_load ∅)
           eq_refl eq_refl).
Defined.

Lemma get_yaml_directory_witness :
  get_yaml "forecast.dist.yml" "forecast.yml" "invest.dist.yml" "invest.yml"
    Instance.safe_load (<["forecast.yml" := Directory]> Instance.fs)
    (PStr "forecast")
  = ([Exists "forecast.yml"; Open "forecast.yml"],
     Raise (IsADirectoryError "forecast.yml")).
Proof.
  exact (proj1 (get_yaml_directory "forecast.dist.yml" "forecast.yml"
                  "invest.dist.yml" "invest.yml" Instance.safe_load
                  (<["forecast.yml" := Directory]> Instance.fs))
           eq_refl).
Defined.

Lemma dashboard_runs_loaded_specs_witness :
  In (RunServer true ["forecast.dist.yml"; "forecast.yml"; "invest.dist.yml";
                      "invest.yml"])
     (fst (dashboard "forecast.dist.yml" "forecast.yml" "invest.dist.yml"
             "invest.yml" Instance.safe_load Instance.fs (pyval * pyval)
             (fun f i => Ok (f, i)) (fun _ _ _ => Ok tt))) /\
  exists forecast_spec invest_spec,
    snd (get_yaml "forecast.dist.yml" "forecast.yml" "invest.dist.yml"
           "invest.yml" Instance.safe_load Instance.fs (PStr "forecast"))
    = Ok forecast_spec /\
    snd (get_yaml "forecast.dist.yml" "forecast.yml" "invest.dist.yml"
           "invest.yml" Instance.safe_load Instance.fs (PStr "invest"))
    = Ok invest_spec.
Proof.
  assert (H : In (RunServer true ["forecast.dist.yml"; "forecast.yml";
                                  "invest.dist.yml"; "invest.yml"])
     (fst (dashboard "forecast.dist.yml" "forecast.yml" "invest.dist.yml"
             "invest.yml" Instance.safe_load Instance.fs (pyval * pyval)
             (fun f i => Ok (f, i)) (fun _ _ _ => Ok tt)))).
  { vm_compute. tauto. }
  split; [exact H |].
  destruct (proj1 (dashboard_runs_loaded_specs "forecast.dist.yml"
                     "forecast.yml" "invest.dist.yml" "invest.yml"
                     Instance.safe_load Instance.fs (pyval * pyval)
                     (fun f i => Ok (f, i)) (fun _ _ _ => Ok tt)) _ _ H)
    as (_ & _ & f & i & Hf & Hi & _).
  exists f, i. now split.
Defined.

End Cli.

(** ** Calendar dates: [datetime.date] and [dateutil.relativedelta] *)

Module Calendar.
Import Py PyNotations.
Local Open Scope Z_scope.

Record date : Type := mkdate { year : Z; month : Z; day : Z }.

Definition MINYEAR : Z := 1.
Definition MAXYEAR : Z := 9999.

(** [calendar.isleap] *)
Definition isleap (y : Z) : bool :=
  (y mod 4 =? 0) && (negb (y mod 100 =? 0) || (y mod 400 =? 0)).

(** [calendar.monthrange(y, m)[1]] *)
Definition days_in_month (y m : Z) : Z :=
  if m =? 2 then (if isleap y then 29 else 28)
  else if (m =? 4) || (m =? 6) || (m =? 9) || (m =? 11) then 30
  else 31.

(** The dates a [datetime.date] object can hold. *)
Definition valid (d : date) : Prop :=
  MINYEAR <= year d <= MAXYEAR /\
  1 <= month d <= 12 /\
  1 <= day d <= days_in_month (year d) (month d).

Definition validb (d : date) : bool :=
  (MINYEAR <=? year d) && (year d <=? MAXYEAR) &&
  (1 <=? month d) && (month d <=? 12) &&
  (1 <=? day d) && (day d <=? days_in_month (year d) (month d)).

(** [date.toordinal()]: the day number, 0001-01-01 being day 1. *)
Definition days_before_year (y : Z) : Z :=
  let y' := y - 1 in y' * 365 + y' / 4 - y' / 100 + y' / 400.

Fixpoint days_before_month_nat (y : Z) (m : nat) : Z :=
  match m with
  | O => 0
  | S m' => days_before_month_nat y m' + days_in_month y (Z.of_nat m)
  end.

Definition days_before_month (y m : Z) : Z :=
  days_before_month_nat y (Z.to_nat (m - 1)).

Definition toordinal (d : date) : Z :=
  days_before_year (year d) + days_before_month (year d) (month d) + day d.

(** The following day, for a date before 9999-12-31. *)
Definition next_day (d : date) : date :=
  if day d <? days_in_month (year d) (month d)
  then mkdate (year d) (month d) (day d + 1)
  else if month d <? 12 then mkdate (year d) (month d + 1) 1
  else mkdate (year d + 1) 1 1.

(** [d + timedelta(days=n)]: [OverflowError] past [date.max]. *)
Fixpoint add_days (n : nat) (d : date) : result date :=
  match n with
  | O => Ok d
  | S n' =>
      let d' := next_day d in
      if year d' <=? MAXYEAR then add_days n' d' else Raise OverflowError
  end.

(** [d.replace(year=y, month=m, day=dd)]: [ValueError] for a date that does
    not exist. *)
Definition replace (y m dd : Z) : result date :=
  if validb (mkdate y m dd) then Ok (mkdate y m dd) else Raise ValueError.

(** [relativedelta(years=..., days=...)], the two forms [get_charts] builds. *)
Record relativedelta : Type := mkdelta { years : Z; days : nat }.

(** [dt + relativedelta]: the year is shifted first, the day is cut to the
    length of the month, then the days are added. *)
Definition add (dt : date) (rd : relativedelta) : result date :=
  let y := year dt + years rd in
  let m := month dt in
  let dd := Z.min (days_in_month y m) (day dt) in
  let? replaced := replace y m dd in
  add_days (days rd) replaced.

(** The order of [datetime.date]: years, then months, then days. *)
Definition date_leb (d1 d2 : date) : bool :=
  (year d1 <? year d2) ||
  ((year d1 =? year d2) &&
   ((month d1 <? month d2) ||
    ((month d1 =? month d2) && (day d1 <=? day d2)))).

Definition date_le (d1 d2 : date) : Prop :=
  year d1 < year d2 \/
  (year d1 = year d2 /\
   (month d1 < month d2 \/ (month d1 = month d2 /\ day d1 <= day d2))).

(** *** Properties of the calendar *)

Lemma date_leb_spec (d1 d2 : date) : date_leb d1 d2 = true <-> date_le d1 d2.
Proof.
  unfold date_leb, date_le.
  rewrite !orb_true_iff, !andb_true_iff, !orb_true_iff, !andb_true_iff,
    !Z.ltb_lt, !Z.eqb_eq, Z.leb_le.
  tauto.
Qed.

Lemma validb_spec (d : date) : validb d = true <-> valid d.
Proof. unfold validb, valid. rewrite !andb_true_iff, !Z.leb_le. tauto. Qed.

Lemma days_in_month_bounds (y m : Z) : 28 <= days_in_month y m <= 31.
Proof.
  unfold days_in_month.
  destruct (m =? 2); [destruct (isleap y); lia |].
  destruct ((m =? 4) || (m =? 6) || (m =? 9) || (m =? 11)); lia.
Qed.

Lemma month_cases (m : Z) :
  1 <= m <= 12 ->
  m = 1 \/ m = 2 \/ m = 3 \/ m = 4 \/ m = 5 \/ m = 6 \/
  m = 7 \/ m = 8 \/ m = 9 \/ m = 10 \/ m = 11 \/ m = 12.
Proof. lia. Qed.

Lemma days_before_month_succ (y m : Z) :
  1 <= m ->
  days_before_month y (m + 1) = days_before_month y m + days_in_month y m.
Proof.
  intros Hm. unfold days_before_month.
  replace (Z.to_nat (m + 1 - 1)) with (S (Z.to_nat (m - 1))) by lia.
  simpl days_before_month_nat.
  replace (Z.of_nat (S (Z.to_nat (m - 1)))) with m by lia.
  reflexivity.
Qed.

Lemma isleap_spec (y : Z) :
  isleap y = true <-> (y mod 4 = 0 /\ (y mod 100 <> 0 \/ y mod 400 = 0)).
Proof.
  unfold isleap.
  rewrite andb_true_iff, orb_true_iff, negb_true_iff, !Z.eqb_eq, Z.eqb_neq.
  tauto.
Qed.

Lemma days_before_year_succ (y : Z) :
  days_before_year (y + 1)
  = days_before_year y + (if isleap y then 366 else 365).
Proof.
  unfold days_before_year. cbv zeta.
  replace (y + 1 - 1) with y by lia.
  destruct (isleap y) eqn:E.
  - apply isleap_spec in E. Z.div_mod_to_equations. lia.
  - assert (H : ~ (y mod 4 = 0 /\ (y mod 100 <> 0 \/ y mod 400 = 0))).
    { rewrite <- isleap_spec, E. discriminate. }
    Z.div_mod_to_equations. lia.
Qed.

Lemma days_before_month_13 (y : Z) :
  days_before_month y 12 + 31 = if isleap y then 366 else 365.
Proof.
  unfold days_before_month. simpl. unfold days_in_month. simpl.
  destruct (isleap y); reflexivity.
Qed.

(** [next_day] is the date whose ordinal is one more. *)
Lemma toordinal_next_day (d : date) :
  valid d -> toordinal (next_day d) = toordinal d + 1.
Proof.
  intros (Hy & Hm & Hd). unfold next_day, toordinal.
  destruct (Z.ltb_spec (day d) (days_in_month (year d) (month d))); simpl.
  - lia.
  - destruct (Z.ltb_spec (month d) 12); simpl.
    + rewrite days_before_month_succ by lia. lia.
    + assert (E : month d = 12) by lia. rewrite E in *.
      rewrite days_before_year_succ.
      pose proof (days_before_month_13 (year d)) as H13.
      change (days_in_month (year d) 12) with 31 in *.
      change (days_before_month (year d + 1) 1) with 0.
      destruct (isleap (year d)); lia.
Qed.

Lemma next_day_valid (d : date) :
  valid d -> year (next_day d) <= MAXYEAR -> valid (next_day d).
Proof.
  intros (Hy & Hm & Hd). unfold next_day, valid.
  destruct (Z.ltb_spec (day d) (days_in_month (year d) (month d))); simpl.
  - lia.
  - destruct (Z.ltb_spec (month d) 12); simpl.
    + pose proof (days_in_month_bounds (year d) (month d + 1)). lia.
    + change (days_in_month (year d + 1) 1) with 31. lia.
Qed.

(** [dt + relativedelta(days=1)] *)
Lemma add_one_day (dt : date) :
  valid dt -> year (next_day dt) <= MAXYEAR ->
  add dt (mkdelta 0 1) = Ok (next_day dt).
Proof.
  intros Hv Hy. unfold add, replace. simpl years. simpl days.
  rewrite Z.add_0_r.
  destruct Hv as (Hyr & Hm & Hd).
  rewrite Z.min_r by lia.
  assert (Hb : validb {| year := year dt; month := month dt; day := day dt |} = true)
    by (apply validb_spec; unfold valid; simpl; lia).
  rewrite Hb. simpl. destruct dt as [y m dd]; simpl in *.
  apply Z.leb_le in Hy. now rewrite Hy.
Qed.

(** [dt + relativedelta(years=1)]: the same month and day of the next year,
    the day cut to the length of that month. *)
Lemma add_one_year (dt : date) :
  valid dt -> year dt + 1 <= MAXYEAR ->
  let dt' := mkdate (year dt + 1) (month dt)
               (Z.min (days_in_month (year dt + 1) (month dt)) (day dt)) in
  add dt (mkdelta 1 0) = Ok dt' /\ valid dt'.
Proof.
  intros (Hyr & Hm & Hd) Hy dt'.
  assert (Hv : valid dt').
  { unfold valid, dt'; simpl.
    pose proof (days_in_month_bounds (year dt + 1) (month dt)).
    unfold MINYEAR in *. lia. }
  split; [| exact Hv].
  unfold add, replace. simpl years. simpl days. fold dt'.
  apply validb_spec in Hv. now rewrite Hv.
Qed.

Lemma days_before_year_mono (y1 y2 : Z) :
  y1 <= y2 -> days_before_year y1 <= days_before_year y2.
Proof.
  intros H. unfold days_before_year. cbv zeta.
  Z.div_mod_to_equations. lia.
Qed.

Lemma days_before_month_mono (y m m' : Z) :
  1 <= m -> m < m' ->
  days_before_month y m + days_in_month y m <= days_before_month y m'.
Proof.
  intros Hm Hlt.
  replace m' with (m + 1 + Z.of_nat (Z.to_nat (m' - m - 1))) by lia.
  induction (Z.to_nat (m' - m - 1)) as [|n IH].
  - rewrite Z.add_0_r, days_before_month_succ by lia. lia.
  - replace (m + 1 + Z.of_nat (S n)) with (m + 1 + Z.of_nat n + 1) by lia.
    rewrite days_before_month_succ by lia.
    pose proof (days_in_month_bounds y (m + 1 + Z.of_nat n)). lia.
Qed.

Lemma day_of_year_bound (d : date) :
  valid d ->
  days_before_month (year d) (month d) + day d
  <= if isleap (year d) then 366 else 365.
Proof.
  intros (_ & Hm & Hd). rewrite <- days_before_month_13.
  destruct (Z.eq_dec (month d) 12) as [E|E].
  - rewrite E in *. change (days_in_month (year d) 12) with 31 in Hd. lia.
  - pose proof (days_before_month_mono (year d) (month d) 12). lia.
Qed.

Lemma days_before_month_nonneg (y m : Z) : 0 <= days_before_month y m.
Proof.
  unfold days_before_month. induction (Z.to_nat (m - 1)) as [|n IH]; simpl.
  - lia.
  - pose proof (days_in_month_bounds y (Z.of_nat (S n))). lia.
Qed.

(** The ordinal grows with the date. *)
Lemma toordinal_mono (d1 d2 : date) :
  valid d1 -> valid d2 -> date_le d1 d2 -> toordinal d1 <= toordinal d2.
Proof.
  intros H1 H2 Hle. unfold toordinal.
  pose proof (day_of_year_bound d1 H1) as Hb.
  destruct H1 as (_ & Hm1 & Hd1), H2 as (_ & Hm2 & Hd2).
  destruct Hle as [Hy|[Hy [Hm|[Hm Hd]]]].
  - pose proof (days_before_year_mono (year d1 + 1) (year d2)) as Hmono.
    rewrite days_before_year_succ in Hmono.
    pose proof (days_before_month_nonneg (year d2) (month d2)). lia.
  - rewrite Hy in *.
    pose proof (days_before_month_mono (year d2) (month d1) (month d2)). lia.
  - rewrite Hy, Hm. lia.
Qed.

Lemma isleap_succ (y : Z) : isleap y = true -> isleap (y + 1) = false.
Proof.
  intros E. destruct (isleap (y + 1)) eqn:E'; [| reflexivity].
  apply isleap_spec in E. apply isleap_spec in E'.
  exfalso. Z.div_mod_to_equations. lia.
Qed.

(** A year later is 365 or 366 days later. *)
Lemma one_year_in_days (dt : date) :
  valid dt ->
  let dt' := mkdate (year dt + 1) (month dt)
               (Z.min (days_in_month (year dt + 1) (month dt)) (day dt)) in
  toordinal dt' - toordinal dt = 365 \/ toordinal dt' - toordinal dt = 366.
Proof.
  intros (Hyr & Hm & Hd) dt'. unfold toordinal, dt'. simpl.
  rewrite days_before_year_succ.
  pose proof (isleap_succ (year dt)) as Hsucc.
  destruct (month_cases _ Hm) as [E|[E|[E|[E|[E|[E|[E|[E|[E|[E|[E|E]]]]]]]]]]];
    rewrite E in *; unfold days_before_month in *; simpl in *;
    unfold days_in_month in *; simpl in *;
    destruct (isleap (year dt)) eqn:E1;
    try (rewrite (Hsucc eq_refl) in *);
    try destruct (isleap (year dt + 1)) eqn:E2; lia.
Qed.

End Calendar.

(** ** forecast/dashboard.py *)

Module Dashboard.
Import Py PyNotations Calendar.

Section GetCharts.

(** The collaborators of [get_charts]: the projector and its accounts
    ([forecast/projector.py]), the date format of [forecast/datespec.py]. *)
Variable Projector : Type.
Variable Account : Type.
Variable Series : Type.

(** [d.strftime(DATE_FORMAT)] *)
Variable strftime : date -> string.
(** [Projector.from_spec(spec, start_date, end_date)] *)
Variable from_spec : pyval -> string -> string -> result Projector.
(** [projector.get_account(a)] *)
Variable get_account : Projector -> pyval -> result Account.
(** [account.name] *)
Variable name : Account -> string.
(** [account.get_running_balance_grouped()] *)
Variable get_running_balance_grouped : Account -> result Series.

(** [dict(name=..., df=...)] *)
Record chart_account : Type := mk_chart_account {
  ca_name : string;
  ca_df : Series
}.

(** [ForecastLineAIO(title=..., accounts=...)] *)
Record ForecastLineAIO : Type := mkForecastLineAIO {
  title : pyval;
  accounts : list chart_account
}.

(** Lines 11-12: the dates of the forecast window, [today] being
    [date.today()]. *)
Definition forecast_window (today : date) : result (date * date) :=
  let? start_date := add today (mkdelta 0 1) in
  let? end_date := add start_date (mkdelta 1 0) in
  Ok (start_date, end_date).

(** The [lambda] of lines 20-23: the projector is asked for the account
    twice. *)
Definition chart_account_of (projector : Projector) (a : pyval)
    : result chart_account :=
  let? acc := get_account projector a in
  let n := name acc in
  let? acc' := get_account projector a in
  let? df := get_running_balance_grouped acc' in
  Ok (mk_chart_account n df).

(** The body of the loop of lines 17-27. *)
Definition chart_of (projector : Projector) (chart : pyval)
    : result ForecastLineAIO :=
  let? account_ids := getitem chart "account_ids" in
  let? ids := iter account_ids in
  let? accounts := mapM (chart_account_of projector) ids in
  let? chart_name := getitem chart "name" in
  Ok (mkForecastLineAIO chart_name accounts).

Definition get_charts (spec : pyval) (today : date)
    : result (list ForecastLineAIO) :=
  let? window := forecast_window today in
  let start_date := fst window in
  let end_date := snd window in
  let? projector := from_spec spec (strftime start_date) (strftime end_date) in
  let? chart_spec := getitem spec "chart_spec" in
  let? chart_list := iter chart_spec in
  mapM (chart_of projector) chart_list.

(** A chart declaration of the spec: its name and the ids of its accounts. *)
Definition is_chart_decl (v : pyval) (chart_name : pyval) (ids : list pyval)
    : Prop :=
  getitem v "name" = Ok chart_name /\
  getitem v "account_ids" = Ok (PList ids).

(** The entry of a chart that comes from the account [a] of the projector. *)
Definition entry_of (projector : Projector) (a : pyval) (e : chart_account)
    : Prop :=
  exists acc,
    get_account projector a = Ok acc /\
    ca_name e = name acc /\
    get_running_balance_grouped acc = Ok (ca_df e).

(** The chart that comes from the declaration [v]. *)
Definition chart_for (projector : Projector) (v : pyval) (c : ForecastLineAIO)
    : Prop :=
  exists ids,
    is_chart_decl v (title c) ids /\
    Forall2 (entry_of projector) ids (accounts c).

(** A declaration [get_charts] can draw: it has a name, its account ids are
    a list, and the projector knows each of them and groups its balance. *)
Definition drawable (projector : Projector) (v : pyval) : Prop :=
  exists chart_name ids,
    is_chart_decl v chart_name ids /\
    Forall (fun a => exists acc df,
                get_account projector a = Ok acc /\
                get_running_balance_grouped acc = Ok df) ids.

(** *** Properties of [get_charts] *)

Lemma mapM_Forall {A B} (f : A -> result B) (P : A -> Prop) (R : A -> B -> Prop) :
  (forall x, P x -> exists y, f x = Ok y /\ R x y) ->
  forall l, Forall P l -> exists ys, mapM f l = Ok ys /\ Forall2 R l ys.
Proof.
  intros Hf l HP. induction HP as [|x l Hx _ (ys & Hys & HR)]; simpl.
  - exists []. split; [reflexivity | constructor].
  - destruct (Hf x Hx) as (y & Hy & Hxy). rewrite Hy, Hys. simpl.
    exists (y :: ys). split; [reflexivity | now constructor].
Qed.

Lemma forecast_window_ok (today : date) :
  valid today -> year (next_day today) < MAXYEAR ->
  forecast_window today
  = Ok (next_day today,
        mkdate (year (next_day today) + 1) (month (next_day today))
          (Z.min (days_in_month (year (next_day today) + 1)
                    (month (next_day today)))
                 (day (next_day today)))).
Proof.
  intros Hv Hy. unfold forecast_window.
  rewrite add_one_day by (assumption || lia). simpl.
  assert (Hn : valid (next_day today)) by (apply next_day_valid; [assumption | lia]).
  destruct (add_one_year (next_day today) Hn) as [-> _]; [lia | reflexivity].
Qed.

(** C3: the window of [get_charts] starts on the day after the current date
    and ends one year after its start -- the same month and day of the next
    year, the day cut to the length of the month, 365 or 366 days later --
    and the projector is built from the spec and these two dates. *)
Theorem get_charts_window (today : date) :
  valid today -> year (next_day today) < MAXYEAR ->
  exists start_date end_date,
    forecast_window today = Ok (start_date, end_date) /\
    valid start_date /\
    toordinal start_date = toordinal today + 1 /\
    valid end_date /\
    year end_date = year start_date + 1 /\
    month end_date = month start_date /\
    day end_date
    = Z.min (days_in_month (year end_date) (month end_date)) (day start_date) /\
    (toordinal end_date - toordinal start_date = 365 \/
     toordinal end_date - toordinal start_date = 366) /\
    forall spec,
      get_charts spec today
      = (let? projector :=
           from_spec spec (strftime start_date) (strftime end_date) in
         let? chart_spec := getitem spec "chart_spec" in
         let? chart_list := iter chart_spec in
         mapM (chart_of projector) chart_list).
Proof.
  intros Hv Hy.
  pose proof (forecast_window_ok today Hv Hy) as Hw.
  assert (Hn : valid (next_day today)) by (apply next_day_valid; [assumption | lia]).
  destruct (add_one_year (next_day today) Hn) as [_ He]; [lia |].
  eexists _, _. split; [exact Hw |].
  split; [exact Hn |].
  split; [now apply toordinal_next_day |].
  split; [exact He |].
  simpl. repeat (split; [reflexivity |]).
  split; [now apply one_year_in_days |].
  intros spec. unfold get_charts. now rewrite Hw.
Qed.

Lemma chart_account_of_ok (projector : Projector) (a : pyval) :
  (exists acc df, get_account projector a = Ok acc /\
                  get_running_balance_grouped acc = Ok df) ->
  exists e, chart_account_of projector a = Ok e /\ entry_of projector a e.
Proof.
  intros (acc & df & Ha & Hdf). unfold chart_account_of.
  rewrite Ha. simpl. rewrite Hdf. simpl.
  eexists. split; [reflexivity |]. exists acc. now repeat split.
Qed.

Lemma chart_of_ok (projector : Projector) (v : pyval) :
  drawable projector v ->
  exists c, chart_of projector v = Ok c /\ chart_for projector v c.
Proof.
  intros (chart_name & ids & [Hname Hids] & Hall). unfold chart_of.
  rewrite Hids. simpl.
  destruct (mapM_Forall (chart_account_of projector) _ (entry_of projector)
              (chart_account_of_ok projector) ids Hall) as (es & Hes & HF).
  rewrite Hes. simpl. rewrite Hname. simpl.
  eexists. split; [reflexivity |].
  exists ids. simpl. now repeat split.
Qed.

(** The charts of a spec whose window and projector could be built. *)
Lemma get_charts_ok (spec : pyval) (today start_date end_date : date)
    (projector : Projector) (decls : list pyval) :
  forecast_window today = Ok (start_date, end_date) ->
  from_spec spec (strftime start_date) (strftime end_date) = Ok projector ->
  getitem spec "chart_spec" = Ok (PList decls) ->
  Forall (drawable projector) decls ->
  exists charts,
    get_charts spec today = Ok charts /\
    Forall2 (chart_for projector) decls charts.
Proof.
  intros Hw Hp Hcs Hall. unfold get_charts.
  rewrite Hw. simpl. rewrite Hp. simpl. rewrite Hcs. simpl.
  exact (mapM_Forall _ _ _ (chart_of_ok projector) decls Hall).
Qed.

(** C4: there is exactly one chart per declaration of the chart list, in
    the order of the list; it is titled with the declaration's name and
    holds, for each listed account id in the listed order, the name and the
    grouped running balance of the account [get_account] returns for it. *)
Theorem get_charts_one_chart_per_declaration
    (spec : pyval) (today start_date end_date : date)
    (projector : Projector) (decls : list pyval) :
  forecast_window today = Ok (start_date, end_date) ->
  from_spec spec (strftime start_date) (strftime end_date) = Ok projector ->
  getitem spec "chart_spec" = Ok (PList decls) ->
  Forall (drawable projector) decls ->
  exists charts,
    get_charts spec today = Ok charts /\
    length charts = length decls /\
    Forall2 (fun v c =>
               exists ids,
                 getitem v "name" = Ok (title c) /\
                 getitem v "account_ids" = Ok (PList ids) /\
                 Forall2 (fun a e =>
                            exists acc,
                              get_account projector a = Ok acc /\
                              ca_name e = name acc /\
                              get_running_balance_grouped acc = Ok (ca_df e))
                         ids (accounts c))
            decls charts.
Proof.
  intros Hw Hp Hcs Hall.
  destruct (get_charts_ok spec today start_date end_date projector decls
              Hw Hp Hcs Hall) as (charts & Hc & HF).
  exists charts. split; [exact Hc |].
  split; [symmetry; exact (Forall2_length _ _ _ HF) |].
  eapply Forall2_impl; [exact HF |].
  intros v c (ids & [Hn Hi] & Hes). exists ids. now repeat split.
Qed.

(** The charts are read from the [chart_spec] entry of the spec: without
    it, [get_charts] raises as soon as the projector is built. *)
Lemma get_charts_without_chart_spec
    (d : list (string * pyval)) (today start_date end_date : date)
    (projector : Projector) :
  forecast_window today = Ok (start_date, end_date) ->
  from_spec (PDict d) (strftime start_date) (strftime end_date) = Ok projector ->
  assoc "chart_spec" d = None ->
  get_charts (PDict d) today = Raise (KeyError "chart_spec").
Proof.
  intros Hw Hp Hcs. unfold get_charts.
  rewrite Hw. simpl. rewrite Hp. simpl. now rewrite Hcs.
Qed.

Lemma get_charts_never_ok_without_chart_spec
    (d : list (string * pyval)) (today : date) :
  assoc "chart_spec" d = None ->
  forall charts, get_charts (PDict d) today <> Ok charts.
Proof.
  intros Hcs charts. unfold get_charts.
  destruct (forecast_window today) as [w|e]; simpl; [| discriminate].
  destruct (from_spec _ _ _) as [p|e]; simpl; [| discriminate].
  rewrite Hcs. discriminate.
Qed.

(** C7, amended: besides what the projector reads, [get_charts] needs the
    top-level key [chart_spec] -- a mapping without it never yields charts,
    and [KeyError] is raised once the projector is built -- and needs no
    other key: with a list of drawable declarations under [chart_spec] the
    charts are produced, and two mappings with the same [chart_spec] entry
    and the same projector give the same charts. *)
Theorem get_charts_top_level_keys
    (d : list (string * pyval)) (today start_date end_date : date)
    (projector : Projector) :
  forecast_window today = Ok (start_date, end_date) ->
  from_spec (PDict d) (strftime start_date) (strftime end_date) = Ok projector ->
  (assoc "chart_spec" d = None ->
   get_charts (PDict d) today = Raise (KeyError "chart_spec")) /\
  (forall decls,
     assoc "chart_spec" d = Some (PList decls) ->
     Forall (drawable projector) decls ->
     exists charts,
       get_charts (PDict d) today = Ok charts /\
       Forall2 (chart_for projector) decls charts) /\
  (forall d',
     from_spec (PDict d') (strftime start_date) (strftime end_date)
     = Ok projector ->
     assoc "chart_spec" d' = assoc "chart_spec" d ->
     get_charts (PDict d') today = get_charts (PDict d) today).
Proof.
  intros Hw Hp. split; [| split].
  - intros Hcs. now apply (get_charts_without_chart_spec d today start_date end_date projector).
  - intros decls Hcs Hall.
    apply (get_charts_ok (PDict d) today start_date end_date projector decls);
      try assumption.
    simpl. now rewrite Hcs.
  - intros d' Hp' Hcs. unfold get_charts.
    rewrite Hw. simpl. rewrite Hp, Hp'. simpl. now rewrite Hcs.
Qed.

(** *** Further properties of [get_charts] *)

Lemma mapM_inv {A B} (f : A -> result B) (l : list A) (ys : list B) :
  mapM f l = Ok ys -> Forall2 (fun x y => f x = Ok y) l ys.
Proof.
  revert ys. induction l as [|x l IH]; simpl; intros ys.
  - intros [= <-]. constructor.
  - destruct (f x) as [y|e] eqn:Hx; simpl; [| discriminate].
    destruct (mapM f l) as [ys'|e]; simpl; [| discriminate].
    intros [= <-]. constructor; [exact Hx | now apply IH].
Qed.

Lemma Forall2_In_l {A B} (R : A -> B -> Prop) (l : list A) (l' : list B) (x : A) :
  Forall2 R l l' -> In x l -> exists y, In y l' /\ R x y.
Proof.
  induction 1 as [|a b l l' Hab _ IH]; simpl; [intros [] |].
  intros [->|Hin]; [eauto |].
  destruct (IH Hin) as (y & Hy & Hxy). eauto.
Qed.

Lemma forecast_window_end_out_of_range (today : date) :
  valid today ->
  year (next_day today) = MAXYEAR ->
  forecast_window today = Raise ValueError.
Proof.
  intros Hv Hy. unfold forecast_window.
  rewrite add_one_day by (assumption || lia). simpl.
  unfold add, replace, validb. simpl.
  destruct (Z.leb_spec (year (next_day today) + 1) MAXYEAR) as [H|H]; [lia |].
  rewrite andb_false_r. reflexivity.
Qed.

Lemma forecast_window_start_out_of_range (today : date) :
  valid today ->
  year (next_day today) > MAXYEAR ->
  forecast_window today = Raise OverflowError.
Proof.
  intros Hv Hy. unfold forecast_window, add, replace. simpl.
  rewrite Z.add_0_r.
  destruct Hv as (Hyr & Hm & Hd). rewrite Z.min_r by lia.
  assert (Hb : validb {| year := year today; month := month today;
                         day := day today |} = true)
    by (apply validb_spec; unfold valid; simpl; lia).
  rewrite Hb. simpl. destruct today as [y m d]; simpl in *.
  destruct (Z.leb_spec (year (next_day {| year := y; month := m; day := d |}))
              MAXYEAR); [lia | reflexivity].
Qed.

Lemma forecast_window_in_range (today : date) (w : date * date) :
  valid today ->
  forecast_window today = Ok w ->
  year (next_day today) < MAXYEAR.
Proof.
  intros Hv Hw.
  destruct (Z.lt_trichotomy (year (next_day today)) MAXYEAR) as [H|[H|H]];
    [exact H | |].
  - rewrite (forecast_window_end_out_of_range today Hv H) in Hw. discriminate.
  - rewrite (forecast_window_start_out_of_range today Hv) in Hw by lia.
    discriminate.
Qed.

(** X16: the dates for which the window exists.  From a current date whose
    next day is before year 9999 the window is built; when the next day is
    in year 9999 the end date is out of range and [ValueError] is raised;
    on 9999-12-31 the start date is, and [OverflowError] is raised. *)
Theorem forecast_window_bounds (today : date) :
  valid today ->
  (year (next_day today) < MAXYEAR <->
   exists w, forecast_window today = Ok w) /\
  (year (next_day today) = MAXYEAR ->
   forecast_window today = Raise ValueError) /\
  (year (next_day today) > MAXYEAR ->
   forecast_window today = Raise OverflowError).
Proof.
  intros Hv. split; [split |].
  - intros Hy. eexists. now apply forecast_window_ok.
  - intros [w Hw]. now apply (forecast_window_in_range today w).
  - split.
    + now apply forecast_window_end_out_of_range.
    + now apply forecast_window_start_out_of_range.
Qed.

(** X17: the end date of the window has the month and the day of its start
    date, one year later, except that a window starting on 29 February ends
    on 28 February. *)
Theorem forecast_window_end_day (today start_date end_date : date) :
  valid today ->
  forecast_window today = Ok (start_date, end_date) ->
  year end_date = year start_date + 1 /\
  month end_date = month start_date /\
  (month start_date = 2 /\ day start_date = 29 -> day end_date = 28) /\
  (~ (month start_date = 2 /\ day start_date = 29) ->
   day end_date = day start_date).
Proof.
  intros Hv Hw.
  assert (Hy : year (next_day today) < MAXYEAR)
    by (now apply (forecast_window_in_range today (start_date, end_date))).
  rewrite (forecast_window_ok today Hv Hy) in Hw. injection Hw as <- <-.
  assert (Hn : valid (next_day today))
    by (apply next_day_valid; [assumption | lia]).
  destruct Hn as (_ & Hm & Hd). simpl.
  split; [reflexivity |]. split; [reflexivity |].
  unfold days_in_month in *.
  destruct (Z.eqb_spec (month (next_day today)) 2) as [E|E].
  - destruct (isleap (year (next_day today))) eqn:L.
    + rewrite (isleap_succ _ L). split; lia.
    + destruct (isleap (year (next_day today) + 1)); split; lia.
  - match goal with
    | |- context [if ?b then 30 else 31] => destruct b
    end; split; lia.
Qed.


(** X19: the charts are all or nothing: one account id that the projector
    does not know, in one declaration, and [get_charts] returns no chart at
    all. *)
Theorem get_charts_unknown_account
    (spec : pyval) (today start_date end_date : date) (projector : Projector)
    (decls : list pyval) (decl : pyval) (ids : list pyval) (a : pyval)
    (e : exn) :
  forecast_window today = Ok (start_date, end_date) ->
  from_spec spec (strftime start_date) (strftime end_date) = Ok projector ->
  getitem spec "chart_spec" = Ok (PList decls) ->
  In decl decls ->
  getitem decl "account_ids" = Ok (PList ids) ->
  In a ids ->
  get_account projector a = Raise e ->
  forall charts, get_charts spec today <> Ok charts.
Proof.
  intros Hw Hp Hcs Hdecl Hids Ha Hacc charts. unfold get_charts.
  rewrite Hw. simpl. rewrite Hp. simpl. rewrite Hcs. simpl.
  intros Hok. apply mapM_inv in Hok.
  destruct (Forall2_In_l _ _ _ _ Hok Hdecl) as (c & _ & Hc).
  unfold chart_of in Hc. rewrite Hids in Hc. simpl in Hc.
  destruct (mapM (chart_account_of projector) ids) as [es|err] eqn:Hes;
    simpl in Hc; [| discriminate].
  apply mapM_inv in Hes.
  destruct (Forall2_In_l _ _ _ _ Hes Ha) as (en & _ & Hen).
  unfold chart_account_of in Hen. rewrite Hacc in Hen. discriminate.
Qed.

(** X20: [chart_spec] has to be a list.  Any other value -- nothing at all, a
    number, a text, a mapping -- makes [get_charts] raise [TypeError], unless
    it is an empty text or an empty mapping, which give no charts. *)
Theorem get_charts_chart_spec_not_a_list
    (spec : pyval) (today start_date end_date : date) (projector : Projector)
    (chart_spec : pyval) :
  forecast_window today = Ok (start_date, end_date) ->
  from_spec spec (strftime start_date) (strftime end_date) = Ok projector ->
  getitem spec "chart_spec" = Ok chart_spec ->
  (forall l, chart_spec <> PList l) ->
  get_charts spec today = Raise TypeError \/
  ((chart_spec = PStr EmptyString \/ chart_spec = PDict []) /\
   get_charts spec today = Ok []).
Proof.
  intros Hw Hp Hcs Hnl. unfold get_charts.
  rewrite Hw. simpl. rewrite Hp. simpl. rewrite Hcs. simpl.
  destruct chart_spec as [| | | |s|l|d]; simpl; try (now left).
  - destruct s as [|c s]; simpl; [right; split; [now left | reflexivity] | now left].
  - now destruct (Hnl l).
  - destruct d as [|[k v] d]; simpl; [right; split; [now right | reflexivity] | now left].
Qed.

End GetCharts.

(** A small projector to run [get_charts] on: it keeps, for every account
    declared under [accounts], the name and a two-point series over the
    window; dates are printed as year-month-day. *)
Module Instance.

Definition series : Type := list (string * Z).
Definition account : Type := (string * series)%type.
Definition projector : Type := list (string * account).

Definition digit (n : Z) : ascii := ascii_of_nat (48 + Z.to_nat (n mod 10)).

Definition digits2 (n : Z) : string :=
  String (digit (n / 10)) (String (digit n) EmptyString).

Definition strftime (d : date) : string :=
  digits2 (year d / 100) +:+ digits2 (year d) +:+ "-" +:+ digits2 (month d)
  +:+ "-" +:+ digits2 (day d).

Definition account_of (start_date end_date : string) (decl : pyval)
    : result (string * account) :=
  let? id := getitem decl "id" in
  let? nm := getitem decl "name" in
  match id, nm with
  | PStr i, PStr n => Ok (i, (n, [(start_date, 0); (end_date, 0)]))
  | _, _ => Raise (Raised "SpecValidationError")
  end.

Definition from_spec (spec : pyval) (start_date end_date : string)
    : result projector :=
  let? accts := getitem spec "accounts" in
  let? decls := iter accts in
  mapM (account_of start_date end_date) decls.

Definition get_account (p : projector) (a : pyval) : result account :=
  match a with
  | PStr id =>
      match assoc id p with
      | Some acc => Ok acc
      | None => Raise (KeyError id)
      end
  | _ => Raise TypeError
  end.

Definition name (acc : account) : string := fst acc.

Definition get_running_balance_grouped (acc : account) : result series :=
  Ok (snd acc).

Definition today : date := mkdate 2026 11 4.

Definition checking : pyval :=
  PDict [("id", PStr "checking"); ("name", PStr "Checking")].

(** A spec with the two top-level keys of the input description. *)
Definition spec_without_charts : pyval :=
  PDict [("accounts", PList [checking]); ("transactions", PList [])].

Definition spec_with_charts : pyval :=
  PDict [("accounts", PList [checking]); ("transactions", PList []);
         ("chart_spec",
           PList [PDict [("name", PStr "Cash");
                         ("account_ids", PList [PStr "checking"])]])].

Definition charts (spec : pyval) (today : date) :=
  get_charts projector account series strftime from_spec get_account name
    get_running_balance_grouped spec today.

End Instance.

Lemma valid_today : valid Instance.today.
Proof. apply validb_spec. reflexivity. Qed.

Lemma get_charts_window_witness :
  valid Instance.today /\
  year (next_day Instance.today) < MAXYEAR /\
  exists start_date end_date,
    forecast_window Instance.today = Ok (start_date, end_date) /\
    toordinal start_date = toordinal Instance.today + 1 /\
    year end_date = year start_date + 1.
Proof.
  assert (Hv : valid Instance.today) by exact valid_today.
  assert (Hy : year (next_day Instance.today) < MAXYEAR) by reflexivity.
  split; [exact Hv |]. split; [exact Hy |].
  destruct (get_charts_window Instance.projector Instance.account
              Instance.series Instance.strftime Instance.from_spec
              Instance.get_account Instance.name
              Instance.get_running_balance_grouped Instance.today Hv Hy)
    as (s & e & Hw & _ & Ho & _ & Hye & _).
  exists s, e. repeat split; assumption.
Defined.

Lemma get_charts_one_chart_per_declaration_witness :
  exists charts,
    Instance.charts Instance.spec_with_charts Instance.today = Ok charts /\
    length charts = 1%nat.
Proof.
  destruct (get_charts_one_chart_per_declaration Instance.projector
              Instance.account Instance.series Instance.strftime
              Instance.from_spec Instance.get_account Instance.name
              Instance.get_running_balance_grouped
              Instance.spec_with_charts Instance.today
              (mkdate 2026 11 5) (mkdate 2027 11 5)
              [("checking", ("Checking", [("2026-11-05", 0); ("2027-11-05", 0)]))]
              [PDict [("name", PStr "Cash");
                      ("account_ids", PList [PStr "checking"])]]
              eq_refl eq_refl eq_refl)
    as (charts & Hc & Hlen & _).
  - constructor; [| constructor].
    exists (PStr "Cash"), [PStr "checking"].
    split; [split; reflexivity |].
    constructor; [| constructor].
    eexists _, _. split; reflexivity.
  - exists charts. split; assumption.
Defined.

(** C7 as stated fails: on a spec that has the account and the transaction
    declarations and nothing else, the projector is built and [get_charts]
    raises [KeyError] for the missing [chart_spec]. *)
Lemma get_charts_needs_chart_spec :
  Instance.from_spec Instance.spec_without_charts "2026-11-05" "2027-11-05"
  = Ok [("checking", ("Checking", [("2026-11-05", 0); ("2027-11-05", 0)]))] /\
  Instance.charts Instance.spec_without_charts Instance.today
  = Raise (KeyError "chart_spec").
Proof. split; reflexivity. Qed.

Lemma get_charts_top_level_keys_witness :
  forecast_window Instance.today = Ok (mkdate 2026 11 5, mkdate 2027 11 5) /\
  Instance.from_spec Instance.spec_without_charts "2026-11-05" "2027-11-05"
  = Ok [("checking", ("Checking", [("2026-11-05", 0); ("2027-11-05", 0)]))] /\
  Instance.charts Instance.spec_without_charts Instance.today
  = Raise (KeyError "chart_spec").
Proof.
  split; [reflexivity |]. split; [reflexivity |].
  refine (proj1 (get_charts_top_level_keys Instance.projector
              Instance.account Instance.series Instance.strftime
              Instance.from_spec Instance.get_account Instance.name
              Instance.get_running_balance_grouped
              [("accounts", PList [Instance.checking]); ("transactions", PList [])]
              Instance.today (mkdate 2026 11 5) (mkdate 2027 11 5)
              [("checking", ("Checking", [("2026-11-05", 0); ("2027-11-05", 0)]))]
              eq_refl eq_refl) eq_refl).
Defined.

Lemma forecast_window_bounds_witness :
  valid (mkdate 9998 12 31) /\
  forecast_window (mkdate 9998 12 31) = Raise ValueError.
Proof.
  assert (Hv : valid (mkdate 9998 12 31)) by (apply validb_spec; reflexivity).
  split; [exact Hv |].
  exact (proj1 (proj2 (forecast_window_bounds (mkdate 9998 12 31) Hv)) eq_refl).
Defined.

Lemma forecast_window_end_day_witness :
  valid (mkdate 2024 2 28) /\
  forecast_window (mkdate 2024 2 28) = Ok (mkdate 2024 2 29, mkdate 2025 2 28) /\
  day (mkdate 2025 2 28) = 28.
Proof.
  assert (Hv : valid (mkdate 2024 2 28)) by (apply validb_spec; reflexivity).
  split; [exact Hv |]. split; [reflexivity |].
  apply (forecast_window_end_day (mkdate 2024 2 28) (mkdate 2024 2 29)
           (mkdate 2025 2 28) Hv eq_refl).
  split; reflexivity.
Defined.


Lemma get_charts_unknown_account_witness :
  Instance.get_account
    [("checking", ("Checking", [("2026-11-05", 0); ("2027-11-05", 0)]))]
    (PStr "savings") = Raise (KeyError "savings") /\
  forall charts,
    Instance.charts
      (PDict [("accounts", PList [Instance.checking]);
              ("chart_spec",
                PList [PDict [("name", PStr "Cash");
                              ("account_ids",
                                PList [PStr "checking"; PStr "savings"])]])])
      Instance.today
    <> Ok charts.
Proof.
  split; [reflexivity |].
  apply (get_charts_unknown_account Instance.projector Instance.account
           Instance.series Instance.strftime Instance.from_spec
           Instance.get_account Instance.name
           Instance.get_running_balance_grouped
           _ Instance.today (mkdate 2026 11 5) (mkdate 2027 11 5)
           [("checking", ("Checking", [("2026-11-05", 0); ("2027-11-05", 0)]))]
           [PDict [("name", PStr "Cash");
                   ("account_ids", PList [PStr "checking"; PStr "savings"])]]
           (PDict [("name", PStr "Cash");
                   ("account_ids", PList [PStr "checking"; PStr "savings"])])
           [PStr "checking"; PStr "savings"] (PStr "savings")
           (KeyError "savings"));
    try reflexivity; simpl; tauto.
Defined.

Lemma get_charts_chart_spec_not_a_list_witness :
  Instance.charts
    (PDict [("accounts", PList [Instance.checking]); ("chart_spec", PNone)])
    Instance.today
  = Raise TypeError.
Proof.
  destruct (get_charts_chart_spec_not_a_list Instance.projector
              Instance.account Instance.series Instance.strftime
              Instance.from_spec Instance.get_account Instance.name
              Instance.get_running_balance_grouped
              (PDict [("accounts", PList [Instance.checking]);
                      ("chart_spec", PNone)])
              Instance.today (mkdate 2026 11 5) (mkdate 2027 11 5)
              [("checking", ("Checking", [("2026-11-05", 0); ("2027-11-05", 0)]))]
              PNone eq_refl eq_refl eq_refl
              ltac:(discriminate))
    as [H|[[H|H] _]]; [exact H | discriminate | discriminate].
Defined.

(** *** The call of the grouping operation

    Line 22 calls [get_running_balance_grouped()] on the account, with no
    argument.  What such a call does depends on the parameters of the
    method, which the sources do not show. *)





Section GroupingCall.

Variable Projector : Type.
Variable Account : Type.
Variable Series : Type.
Variable strftime : date -> string.
Variable from_spec : pyval -> string -> string -> result Projector.
Variable get_account : Projector -> pyval -> result Account.
Variable name : Account -> string.







End GroupingCall.







End Dashboard.

(** ** The forecast projection engine

    The sources call [Projector.from_spec], [get_account] and
    [get_running_balance_grouped] and do not contain them; this module
    follows the design document. *)

Module Engine.
Import Py PyNotations Calendar.
Local Open Scope Z_scope.

(** Modelled from the spec: the ledger entry of section 3, a date, the delta
    applied on it, the running balance after it and the label of the rule
    that caused it; the code of the ledger is not in the sources. *)
Record ledger_entry : Type := mk_entry {
  le_date : date;
  le_delta : Z;
  le_balance : Z;
  le_label : string
}.

Definition ledger : Type := list ledger_entry.

(** Modelled from the spec: the grouping periods of section 4.5, named after
    the interval units of section 3; the code that groups is not in the
    sources. *)
Inductive period : Type :=
| Day
| Week
| Month
| Year.

(** Modelled from the spec: the label of the period bucket a date falls in,
    as the number of the day, of the week (of seven days, counted from
    0001-01-01, a Monday), of the calendar month, or of the year. *)
Definition bucket (p : period) (d : date) : Z :=
  match p with
  | Day => toordinal d
  | Week => (toordinal d - 1) / 7
  | Month => year d * 12 + (month d - 1)
  | Year => year d
  end.

(** The buckets [from], [from + 1], ... ([n] of them), all with the balance
    [bal]: a bucket without entries inherits the closing balance of the one
    before it. *)
Definition carry_forward (from : Z) (n : nat) (bal : Z) : list (Z * Z) :=
  map (fun i => (from + Z.of_nat i, bal)) (seq 0 n).

(** [group_from p cur bal rest]: the bucket [cur] is open and [bal] is the
    balance of the last entry seen in it. *)
Fixpoint group_from (p : period) (cur bal : Z) (rest : ledger) : list (Z * Z) :=
  match rest with
  | [] => [(cur, bal)]
  | e :: rest' =>
      let b := bucket p (le_date e) in
      if b <=? cur then group_from p cur (le_balance e) rest'
      else (carry_forward cur (Z.to_nat (b - cur)) bal
              ++ group_from p b (le_balance e) rest')%list
  end.

(** Modelled from the spec: [group(ledger, period)] of section 4.5, one pair
    of period label and balance per bucket from the first entry's to the
    last entry's, the balance being that of the last entry dated within the
    bucket. *)
Definition group (l : ledger) (p : period) : list (Z * Z) :=
  match l with
  | [] => []
  | e :: rest => group_from p (bucket p (le_date e)) (le_balance e) rest
  end.

(** The ledger invariant of section 3: dates never decrease, and are dates. *)
Fixpoint dated_from (d : date) (l : ledger) : Prop :=
  match l with
  | [] => True
  | e :: l' => valid (le_date e) /\ date_le d (le_date e) /\ dated_from (le_date e) l'
  end.

Definition well_dated (l : ledger) : Prop :=
  match l with
  | [] => True
  | e :: l' => valid (le_date e) /\ dated_from (le_date e) l'
  end.

(** The balance a bucket closes with: that of the last entry whose bucket is
    not later. *)
Definition closing_balance (p : period) (l : ledger) (b : Z) : option Z :=
  fold_left (fun acc e => if bucket p (le_date e) <=? b then Some (le_balance e) else acc)
    l None.

(** The label of the last entry's bucket, [cur] when there is no entry. *)
Fixpoint last_bucket (p : period) (cur : Z) (rest : ledger) : Z :=
  match rest with
  | [] => cur
  | e :: rest' => last_bucket p (bucket p (le_date e)) rest'
  end.

(** The labels [from], [from + 1], ..., [n] of them. *)
Definition labels (from : Z) (n : nat) : list Z :=
  map (fun i => from + Z.of_nat i) (seq 0 n).

(** The ledger of the example of section 8: 1000 on 2024-01-01, a salary of
    2000 on the first and a rent of 1200 on the third of each month. *)
Definition example_ledger : ledger :=
  [mk_entry (mkdate 2024 1 1) 0 1000 "seed";
   mk_entry (mkdate 2024 1 1) 2000 3000 "salary";
   mk_entry (mkdate 2024 1 3) (-1200) 1800 "rent";
   mk_entry (mkdate 2024 2 1) 2000 3800 "salary";
   mk_entry (mkdate 2024 2 3) (-1200) 2600 "rent";
   mk_entry (mkdate 2024 3 1) 2000 4600 "salary";
   mk_entry (mkdate 2024 3 3) (-1200) 3400 "rent"].

(** *** Properties of the grouping *)

Section Grouping.

Variable p : period.

(** The buckets of the entries never decrease, from [cur] on. *)
Fixpoint buckets_from (cur : Z) (rest : ledger) : Prop :=
  match rest with
  | [] => True
  | e :: rest' =>
      cur <= bucket p (le_date e) /\ buckets_from (bucket p (le_date e)) rest'
  end.

(** [closing_balance] over the entries that remain, from the balance [acc]
    of the entries before them. *)
Definition closing_from (acc : option Z) (rest : ledger) (b : Z) : option Z :=
  fold_left (fun acc e => if bucket p (le_date e) <=? b then Some (le_balance e) else acc)
    rest acc.

Lemma bucket_mono (d1 d2 : date) :
  valid d1 -> valid d2 -> date_le d1 d2 -> bucket p d1 <= bucket p d2.
Proof.
  intros H1 H2 Hle. pose proof (toordinal_mono d1 d2 H1 H2 Hle) as Ho.
  destruct p; simpl.
  - exact Ho.
  - apply Z.div_le_mono; lia.
  - destruct H1 as (_ & Hm1 & _), H2 as (_ & Hm2 & _).
    unfold date_le in Hle. lia.
  - unfold date_le in Hle. lia.
Qed.

Lemma dated_buckets (d : date) (rest : ledger) :
  valid d -> dated_from d rest -> buckets_from (bucket p d) rest.
Proof.
  revert d. induction rest as [|e rest IH]; intros d Hd; simpl; [trivial |].
  intros (He & Hle & Hrest). split; [now apply bucket_mono | now apply IH].
Qed.

Lemma last_bucket_ge (cur : Z) (rest : ledger) :
  buckets_from cur rest -> cur <= last_bucket p cur rest.
Proof.
  revert cur. induction rest as [|e rest IH]; intros cur; simpl; [lia |].
  intros [Hc Hrest]. specialize (IH _ Hrest). lia.
Qed.

Lemma labels_S (from : Z) (n : nat) :
  labels from (S n) = from :: labels (from + 1) n.
Proof.
  unfold labels. simpl. rewrite Z.add_0_r. f_equal.
  rewrite <- seq_shift, map_map. apply map_ext. intros i. lia.
Qed.

Lemma labels_app (from : Z) (n m : nat) :
  (labels from n ++ labels (from + Z.of_nat n) m)%list = labels from (n + m).
Proof.
  revert from. induction n as [|n IH]; intros from.
  - simpl. now rewrite Z.add_0_r.
  - rewrite Nat.add_succ_l, !labels_S. simpl. f_equal.
    rewrite <- IH. do 2 f_equal. lia.
Qed.

Lemma labels_lt (from : Z) (n : nat) (b : Z) :
  In b (labels from n) <-> from <= b < from + Z.of_nat n.
Proof.
  unfold labels. rewrite in_map_iff. split.
  - intros (i & <- & Hi). apply in_seq in Hi. lia.
  - intros Hb. exists (Z.to_nat (b - from)). split; [lia |].
    apply in_seq. lia.
Qed.

Lemma labels_sorted (from : Z) (n : nat) : StronglySorted Z.lt (labels from n).
Proof.
  revert from. induction n as [|n IH]; intros from.
  - constructor.
  - rewrite labels_S. constructor; [apply IH |].
    apply List.Forall_forall. intros b Hb. apply labels_lt in Hb. lia.
Qed.

Lemma carry_forward_labels (from : Z) (n : nat) (bal : Z) :
  map fst (carry_forward from n bal) = labels from n.
Proof. unfold carry_forward, labels. rewrite map_map. reflexivity. Qed.

Lemma in_carry_forward (from : Z) (n : nat) (bal b x : Z) :
  In (b, x) (carry_forward from n bal) -> from <= b < from + Z.of_nat n /\ x = bal.
Proof.
  unfold carry_forward. rewrite in_map_iff.
  intros (i & [= <- <-] & Hi). apply in_seq in Hi. lia.
Qed.

Lemma group_from_labels (rest : ledger) (cur bal : Z) :
  buckets_from cur rest ->
  map fst (group_from p cur bal rest)
  = labels cur (Z.to_nat (last_bucket p cur rest - cur + 1)).
Proof.
  revert cur bal. induction rest as [|e rest IH]; intros cur bal; simpl.
  - intros _. replace (cur - cur + 1) with 1 by lia.
    change (Z.to_nat 1) with 1%nat. now rewrite labels_S.
  - intros [Hc Hrest].
    pose proof (last_bucket_ge _ _ Hrest) as Hlast.
    destruct (Z.leb_spec (bucket p (le_date e)) cur) as [Hle|Hgt].
    + assert (E : bucket p (le_date e) = cur) by lia.
      rewrite E in *. now apply IH.
    + rewrite map_app, carry_forward_labels, (IH _ _ Hrest).
      replace (bucket p (le_date e))
        with (cur + Z.of_nat (Z.to_nat (bucket p (le_date e) - cur))) at 2 by lia.
      rewrite labels_app. f_equal. lia.
Qed.

Lemma group_from_ge (rest : ledger) (cur bal b x : Z) :
  buckets_from cur rest -> In (b, x) (group_from p cur bal rest) -> cur <= b.
Proof.
  intros Hb Hin.
  assert (H : In b (map fst (group_from p cur bal rest)))
    by (apply in_map_iff; now exists (b, x)).
  rewrite group_from_labels in H by assumption. apply labels_lt in H. lia.
Qed.

Lemma closing_from_later (acc : option Z) (rest : ledger) (cur b : Z) :
  buckets_from cur rest -> b < cur -> closing_from acc rest b = acc.
Proof.
  revert cur. induction rest as [|e rest IH]; intros cur; simpl; [reflexivity |].
  intros [Hc Hrest] Hb. unfold closing_from in *. simpl.
  destruct (Z.leb_spec (bucket p (le_date e)) b); [lia |].
  apply (IH _ Hrest). lia.
Qed.

Lemma group_from_closing (rest : ledger) (cur bal b x : Z) :
  buckets_from cur rest ->
  In (b, x) (group_from p cur bal rest) ->
  closing_from (Some bal) rest b = Some x.
Proof.
  revert cur bal. induction rest as [|e rest IH]; intros cur bal; simpl.
  - intros _ [[= <- <-]|[]]. reflexivity.
  - intros [Hc Hrest]. unfold closing_from. simpl. fold (closing_from).
    destruct (Z.leb_spec (bucket p (le_date e)) cur) as [Hle|Hgt].
    + assert (E : bucket p (le_date e) = cur) by lia.
      intros Hin. rewrite E in *.
      pose proof (group_from_ge _ _ _ _ _ Hrest Hin) as Hge.
      destruct (Z.leb_spec cur b); [| lia].
      now apply (IH cur).
    + intros Hin. apply in_app_or in Hin. destruct Hin as [Hin|Hin].
      * apply in_carry_forward in Hin. destruct Hin as [Hrange ->].
        destruct (Z.leb_spec (bucket p (le_date e)) b); [lia |].
        apply (closing_from_later _ _ _ _ Hrest). lia.
      * pose proof (group_from_ge _ _ _ _ _ Hrest Hin) as Hge.
        destruct (Z.leb_spec (bucket p (le_date e)) b); [| lia].
        now apply (IH (bucket p (le_date e))).
Qed.

(** The grouping of section 4.5 returns pairs of a period label and a
    balance, one per bucket of the period from the first entry's to the last
    entry's, in increasing order of the labels, each with the balance of the
    last entry dated no later than the bucket. *)
Theorem group_ordered_pairs (e : ledger_entry) (rest : ledger) :
  well_dated (e :: rest) ->
  let first := bucket p (le_date e) in
  let last := last_bucket p first rest in
  map fst (group (e :: rest) p) = labels first (Z.to_nat (last - first + 1)) /\
  StronglySorted Z.lt (map fst (group (e :: rest) p)) /\
  first <= last /\
  (forall b bal,
     In (b, bal) (group (e :: rest) p) ->
     first <= b <= last /\ closing_balance p (e :: rest) b = Some bal).
Proof.
  intros [He Hrest] first last.
  pose proof (dated_buckets _ _ He Hrest) as Hb. fold first in Hb.
  pose proof (last_bucket_ge _ _ Hb) as Hlast. fold last in Hlast.
  assert (Hl : map fst (group (e :: rest) p)
               = labels first (Z.to_nat (last - first + 1)))
    by (apply group_from_labels; exact Hb).
  split; [exact Hl |]. split; [rewrite Hl; apply labels_sorted |].
  split; [exact Hlast |].
  intros b bal Hin. split.
  - assert (H : In b (map fst (group (e :: rest) p)))
      by (apply in_map_iff; now exists (b, bal)).
    rewrite Hl in H. apply labels_lt in H. lia.
  - pose proof (group_from_ge _ _ _ _ _ Hb Hin) as Hge.
    unfold closing_balance. simpl. fold first.
    destruct (Z.leb_spec first b); [| lia].
    exact (group_from_closing _ _ _ _ _ Hb Hin).
Qed.

End Grouping.

Lemma example_ledger_well_dated : well_dated example_ledger.
Proof.
  unfold example_ledger, well_dated, dated_from.
  repeat split; try (apply validb_spec; reflexivity);
    apply date_leb_spec; reflexivity.
Qed.

(** The grouping of section 8: January closes with 1800, February with 2600
    and March with 3400. *)
Example example_grouped_by_month :
  group example_ledger Month
  = [(2024 * 12 + 0, 1800); (2024 * 12 + 1, 2600); (2024 * 12 + 2, 3400)].
Proof. reflexivity. Qed.

Lemma group_ordered_pairs_witness :
  well_dated example_ledger /\
  map fst (group example_ledger Month) = labels (2024 * 12) 3.
Proof.
  split; [exact example_ledger_well_dated |].
  exact (proj1 (group_ordered_pairs Month _ _ example_ledger_well_dated)).
Defined.

(** *** The projection *)

(** Modelled from the spec: the direction of a transaction rule
    (section 3). *)
Inductive direction : Type :=
| Deposit
| Withdrawal
| Transfer.

(** Modelled from the spec: the amount of a rule, a fixed value or a formula
    of the balance another account has on the date of the event
    (section 3). *)
Inductive amount_spec : Type :=
| Fixed (v : Z)
| Formula (ref : string) (f : Z -> Z).

(** Modelled from the spec: an account declaration (section 3). *)
Record account : Type := mk_account {
  id : string;
  name : string;
  initial_balance : Z;
  start_date : date
}.

(** Modelled from the spec: an event, a delta on a date, with the
    declaration index of its rule as the tie-break of same-day events
    (sections 4.3 and 9). *)
Record event : Type := mk_event {
  ev_date : date;
  ev_index : nat;
  ev_delta : Z;
  ev_label : string
}.

(** The ledgers of the accounts evaluated so far, by account id. *)
Abbreviation ledgers := (gmap string ledger).

Definition date_max (d1 d2 : date) : date := if date_leb d1 d2 then d2 else d1.
Definition date_min (d1 d2 : date) : date := if date_leb d1 d2 then d1 else d2.

(** Modelled from the spec: the order of the events of an account, by date
    and then by declaration index (section 4.3). *)
Definition event_leb (e1 e2 : event) : bool :=
  if date_leb (ev_date e1) (ev_date e2)
  then if date_leb (ev_date e2) (ev_date e1)
       then (ev_index e1 <=? ev_index e2)%nat
       else true
  else false.

Fixpoint insert_event (e : event) (l : list event) : list event :=
  match l with
  | [] => [e]
  | x :: l' => if event_leb x e then x :: insert_event e l' else e :: x :: l'
  end.

Definition sort_events (l : list event) : list event :=
  fold_left (fun sorted e => insert_event e sorted) l [].

(** Modelled from the spec: the fold of section 4.4,
    [new_balance = previous_balance + delta]. *)
Fixpoint fold_events (balance : Z) (events : list event) : ledger :=
  match events with
  | [] => []
  | e :: events' =>
      let new_balance := balance + ev_delta e in
      mk_entry (ev_date e) (ev_delta e) new_balance (ev_label e)
        :: fold_events new_balance events'
  end.

(** Modelled from the spec: [accumulate(account, ordered_events)] of section
    4.4, which starts from the seed entry. *)
Definition accumulate (a : account) (events : list event) : ledger :=
  mk_entry (start_date a) 0 (initial_balance a) "seed"
    :: fold_events (initial_balance a) events.

(** Modelled from the spec: the balance of a ledger as of a date, that of
    its last entry dated no later (section 4.2); nothing before the seed. *)
Definition balance_at (l : ledger) (d : date) : Z :=
  fold_left (fun acc e => if date_leb (le_date e) d then le_balance e else acc) l 0.

Section Projection.

(** Modelled from the spec: the recurrence descriptors and their resolver
    [resolve(date_spec, window)] of section 4.1; a pure function of the
    descriptor and the window. *)
Variable DateSpec : Type.
Variable resolve : DateSpec -> date * date -> list date.

(** Modelled from the spec: a transaction rule (section 3). *)
Record rule : Type := mk_rule {
  label : string;
  amount : amount_spec;
  dir : direction;
  source_account_id : string;
  dest_account_id : option string;
  date_spec : DateSpec;
  effective_start : option date;
  effective_end : option date
}.

(** Modelled from the spec: the specification, the account and the rule
    declarations in the order they are written (section 6). *)
Record spec : Type := mk_spec {
  accounts : list account;
  rules : list rule
}.

Variable sp : spec.
Variable window : date * date.

Definition transfers_into (a : string) (r : rule) : bool :=
  match dir r, dest_account_id r with
  | Transfer, Some d => String.eqb d a
  | _, _ => false
  end.

(** The rules an account owns: those that name it as source or as
    destination. *)
Definition attached (a : string) (r : rule) : bool :=
  String.eqb (source_account_id r) a || transfers_into a r.

Definition formula_refs (r : rule) : list string :=
  match amount r with
  | Fixed _ => []
  | Formula ref _ => [ref]
  end.

(** Modelled from the spec: the dependency edges into an account
    (section 4.3): the accounts whose balance a rule attached to it reads,
    and the sources of the transfers into it. *)
Definition deps (a : string) : list string :=
  flat_map (fun r =>
              if attached a r
              then (formula_refs r
                      ++ (if transfers_into a r then [source_account_id r] else []))%list
              else [])
           (rules sp).

(** The window of a rule: the forecast window narrowed by the effective
    dates of the rule. *)
Definition rule_window (r : rule) : date * date :=
  (match effective_start r with
   | Some s => date_max (fst window) s
   | None => fst window
   end,
   match effective_end r with
   | Some e => date_min (snd window) e
   | None => snd window
   end).

(** Modelled from the spec: the amount of a rule on a date (section 4.2),
    read from the ledgers of the accounts evaluated before. *)
Definition amount_at (st : ledgers) (r : rule) (d : date) : Z :=
  match amount r with
  | Fixed v => v
  | Formula ref f => f (balance_at (default ([] : ledger) (st !! ref)) d)
  end.

(** The start date of a declared account. *)
Definition start_of (i : string) : option date :=
  option_map start_date
    (List.find (fun a => String.eqb (id a) i) (accounts sp)).

(** No event applies before the start date of an account it touches: a
    transfer applies to both of its accounts or to neither. *)
Definition applies (r : rule) (d : date) : bool :=
  forallb (fun i =>
             match start_of i with
             | Some s => date_leb s d
             | None => true
             end)
    (source_account_id r
       :: match dest_account_id r with Some i => [i] | None => [] end).

Definition rule_dates (r : rule) : list date :=
  List.filter (applies r) (resolve (date_spec r) (rule_window r)).

(** The events a rule yields for an account: on the source side a deposit
    adds and a withdrawal or a transfer takes; the destination of a
    transfer receives the same amount on the same date. *)
Definition rule_events (st : ledgers) (a : account) (ir : nat * rule)
    : list event :=
  let i := fst ir in
  let r := snd ir in
  let dates := rule_dates r in
  ((if String.eqb (source_account_id r) (id a)
    then map (fun d =>
                mk_event d i
                  (match dir r with
                   | Deposit => amount_at st r d
                   | Withdrawal | Transfer => - amount_at st r d
                   end)
                  (label r)) dates
    else [])
   ++ (if transfers_into (id a) r
       then map (fun d => mk_event d i (amount_at st r d) (label r)) dates
       else []))%list.

Definition indexed (l : list rule) : list (nat * rule) :=
  combine (seq 0 (length l)) l.

Definition events (st : ledgers) (a : account) : list event :=
  flat_map (rule_events st a) (indexed (rules sp)).

(** The ledger of an account, given the ledgers of the accounts it depends
    on. *)
Definition ledger_of (st : ledgers) (a : account) : ledger :=
  accumulate a (sort_events (events st a)).

Definition declared (i : string) : bool :=
  existsb (fun a => String.eqb (id a) i) (accounts sp).

Fixpoint distinct (l : list string) : bool :=
  match l with
  | [] => true
  | x :: l' => negb (existsb (String.eqb x) l') && distinct l'
  end.

(** Modelled from the spec: a destination is required exactly for a
    transfer (section 3). *)
Definition well_directed (r : rule) : bool :=
  match dir r, dest_account_id r with
  | Transfer, Some _ => true
  | Transfer, None => false
  | _, Some _ => false
  | _, None => true
  end.

Definition references (r : rule) : list string :=
  (source_account_id r
     :: match dest_account_id r with Some d => [d] | None => [] end
     ++ formula_refs r)%list.

(** Modelled from the spec: the validation of section 4.3 and the errors of
    section 7. *)
Definition validate : result unit :=
  if negb (distinct (map id (accounts sp)))
  then Raise (Raised "SpecValidationError")
  else if negb (forallb well_directed (rules sp))
  then Raise (Raised "SpecValidationError")
  else if negb (forallb (fun r => forallb declared (references r)) (rules sp))
  then Raise (Raised "UnknownAccountError")
  else Ok tt.

(** An account is ready when the accounts it depends on are evaluated. *)
Definition ready (st : ledgers) (a : account) : bool :=
  forallb (fun i => bool_decide (is_Some (st !! i))) (deps (id a)).

Definition pending (st : ledgers) (a : account) : bool :=
  bool_decide (st !! id a = None).

(** Modelled from the spec: the evaluation in dependency order of section
    4.3.  Any order that evaluates an account after the accounts it depends
    on is allowed (section 5): a step evaluates one account that is
    pending and ready. *)
Inductive reachable : ledgers -> Prop :=
| reach_start : reachable ∅
| reach_step (st : ledgers) (a : account) :
    reachable st ->
    In a (accounts sp) ->
    pending st a = true ->
    ready st a = true ->
    reachable (<[id a := ledger_of st a]> st).

(** A run of the projection: the specification is valid and every account
    has been evaluated. *)
Definition projects (st : ledgers) : Prop :=
  validate = Ok tt /\
  reachable st /\
  forall a, In a (accounts sp) -> is_Some (st !! id a).

(** One evaluation order: always the first pending account, in declaration
    order, that is ready.  When accounts are pending and none is ready the
    dependencies have a cycle. *)
Fixpoint schedule (fuel : nat) (st : ledgers) : result ledgers :=
  match List.filter (pending st) (accounts sp) with
  | [] => Ok st
  | waiting =>
      match fuel with
      | O => Raise (Raised "DependencyCycleError")
      | S fuel' =>
          match List.find (ready st) waiting with
          | Some a => schedule fuel' (<[id a := ledger_of st a]> st)
          | None => Raise (Raised "DependencyCycleError")
          end
      end
  end.

(** Modelled from the spec: [from_spec(spec, start_date, end_date)] of
    section 4.3, here with the ledgers of the accounts as the projector. *)
Definition from_spec : result ledgers :=
  let? _ := validate in
  schedule (length (accounts sp)) ∅.

(** **** Properties of the projection *)

Lemma flat_map_ext_in {A B} (f g : A -> list B) (l : list A) :
  (forall x, In x l -> f x = g x) -> flat_map f l = flat_map g l.
Proof.
  induction l as [|x l IH]; simpl; intros H; [reflexivity |].
  rewrite (H x) by now left. rewrite IH; [reflexivity |].
  intros y Hy. apply H. now right.
Qed.

Lemma amount_at_local (st1 st2 : ledgers) (r : rule) (d : date) :
  (forall i, In i (formula_refs r) -> st1 !! i = st2 !! i) ->
  amount_at st1 r d = amount_at st2 r d.
Proof.
  unfold amount_at, formula_refs. destruct (amount r) as [v|ref f]; [reflexivity |].
  intros H. rewrite (H ref) by now left. reflexivity.
Qed.

Lemma deps_formula_refs (a : string) (r : rule) (i : string) :
  In r (rules sp) -> attached a r = true -> In i (formula_refs r) ->
  In i (deps a).
Proof.
  intros Hr Ha Hi. unfold deps. apply in_flat_map. exists r.
  split; [exact Hr |]. rewrite Ha. apply in_or_app. now left.
Qed.

Lemma rule_events_local (st1 st2 : ledgers) (a : account) (ir : nat * rule) :
  In (snd ir) (rules sp) ->
  (forall i, In i (deps (id a)) -> st1 !! i = st2 !! i) ->
  rule_events st1 a ir = rule_events st2 a ir.
Proof.
  intros Hr Hagree. unfold rule_events.
  destruct (attached (id a) (snd ir)) eqn:Hatt.
  - assert (Hamt : forall d, amount_at st1 (snd ir) d = amount_at st2 (snd ir) d).
    { intros d. apply amount_at_local. intros i Hi. apply Hagree.
      now apply (deps_formula_refs _ (snd ir)). }
    f_equal.
    + destruct (String.eqb _ _); [| reflexivity].
      apply map_ext. intros d. now rewrite Hamt.
    + destruct (transfers_into _ _); [| reflexivity].
      apply map_ext. intros d. now rewrite Hamt.
  - unfold attached in Hatt. apply orb_false_iff in Hatt as [-> ->].
    reflexivity.
Qed.

(** The ledger of an account depends on the ledgers of the accounts it
    depends on, and on no other. *)
Lemma ledger_of_local (st1 st2 : ledgers) (a : account) :
  (forall i, In i (deps (id a)) -> st1 !! i = st2 !! i) ->
  ledger_of st1 a = ledger_of st2 a.
Proof.
  intros Hagree. unfold ledger_of, events. do 2 f_equal.
  apply flat_map_ext_in. intros ir Hir.
  apply rule_events_local; [| exact Hagree].
  unfold indexed in Hir. destruct ir as [i r]. simpl.
  now apply in_combine_r in Hir.
Qed.

Lemma distinct_spec (l : list string) :
  distinct l = true -> NoDup l.
Proof.
  induction l as [|x l IH]; simpl; [constructor |].
  rewrite andb_true_iff, negb_true_iff. intros [Hx Hl].
  constructor; [| now apply IH].
  intros Hin. apply not_true_iff_false in Hx. apply Hx.
  apply existsb_exists. exists x. split; [| apply String.eqb_refl].
  apply list_elem_of_In. exact Hin.
Qed.

Lemma NoDup_map_inj {A} (f : A -> string) (l : list A) (x y : A) :
  NoDup (map f l) -> In x l -> In y l -> f x = f y -> x = y.
Proof.
  induction l as [|z l IH]; simpl; [intros _ [] |].
  intros Hnd Hx Hy Hf. apply NoDup_cons in Hnd as [Hz Hnd].
  destruct Hx as [->|Hx], Hy as [->|Hy].
  - reflexivity.
  - exfalso. apply Hz. rewrite Hf. apply list_elem_of_In, in_map, Hy.
  - exfalso. apply Hz. rewrite <- Hf. apply list_elem_of_In, in_map, Hx.
  - now apply IH.
Qed.

Lemma validate_distinct : validate = Ok tt -> NoDup (map id (accounts sp)).
Proof.
  unfold validate. destruct (distinct (map id (accounts sp))) eqn:E; simpl.
  - intros _. now apply distinct_spec.
  - discriminate.
Qed.

Lemma ready_spec (st : ledgers) (a : account) :
  ready st a = true <-> forall i, In i (deps (id a)) -> is_Some (st !! i).
Proof.
  unfold ready. rewrite forallb_forall. split; intros H i Hi.
  - specialize (H i Hi). now apply bool_decide_eq_true in H.
  - apply bool_decide_eq_true. now apply H.
Qed.

Lemma pending_spec (st : ledgers) (a : account) :
  pending st a = true <-> st !! id a = None.
Proof. unfold pending. apply bool_decide_eq_true. Qed.

(** Every ledger of a reachable state is the ledger of a declared account,
    computed from ledgers the state holds. *)
Lemma reachable_ledger (st : ledgers) :
  reachable st ->
  forall i l, st !! i = Some l ->
    exists a, In a (accounts sp) /\ id a = i /\
              (forall j, In j (deps i) -> is_Some (st !! j)) /\
              l = ledger_of st a.
Proof.
  induction 1 as [|st a Hreach IH Ha Hpend Hready]; intros i l Hl.
  - now rewrite lookup_empty in Hl.
  - apply pending_spec in Hpend.
    assert (Hkeep : forall j, is_Some (st !! j) ->
                      <[id a := ledger_of st a]> st !! j = st !! j).
    { intros j [lj Hj]. apply lookup_insert_ne. intros E.
      rewrite <- E, Hpend in Hj. discriminate. }
    destruct (decide (id a = i)) as [E|E].
    + subst i. rewrite lookup_insert_eq in Hl. injection Hl as <-.
      pose proof (proj1 (ready_spec st a) Hready) as Hdeps.
      exists a. split; [exact Ha |]. split; [reflexivity |]. split.
      * intros j Hj. rewrite Hkeep by now apply Hdeps. now apply Hdeps.
      * apply ledger_of_local. intros j Hj. symmetry. now apply Hkeep, Hdeps.
    + rewrite lookup_insert_ne in Hl by exact E.
      destruct (IH i l Hl) as (a' & Ha' & Hid & Hdeps & ->).
      exists a'. split; [exact Ha' |]. split; [exact Hid |]. split.
      * intros j Hj. rewrite Hkeep by now apply Hdeps. now apply Hdeps.
      * apply ledger_of_local. intros j Hj. symmetry. apply Hkeep, Hdeps.
        now rewrite <- Hid.
Qed.

(** Whatever a partial evaluation has computed, a complete one has computed
    the same. *)
Lemma reachable_included (st r : ledgers) :
  validate = Ok tt ->
  reachable st ->
  reachable r ->
  (forall a, In a (accounts sp) -> is_Some (r !! id a)) ->
  forall i l, st !! i = Some l -> r !! i = Some l.
Proof.
  intros Hval Hst Hr Hcomplete.
  induction Hst as [|st a Hreach IH Ha Hpend Hready]; intros i l Hl.
  - now rewrite lookup_empty in Hl.
  - destruct (decide (id a = i)) as [E|E].
    + subst i. rewrite lookup_insert_eq in Hl. injection Hl as <-.
      destruct (Hcomplete a Ha) as [l2 Hl2]. rewrite Hl2. f_equal.
      destruct (reachable_ledger r Hr _ _ Hl2) as (a' & Ha' & Hid & _ & ->).
      assert (a' = a) as ->
        by (apply (NoDup_map_inj id (accounts sp));
            auto using validate_distinct).
      apply ledger_of_local. intros j Hj.
      destruct (proj1 (ready_spec st a) Hready j Hj) as [lj Hlj].
      rewrite Hlj. now apply IH.
    + rewrite lookup_insert_ne in Hl by exact E. now apply IH.
Qed.

(** The scheduler performs an evaluation the specification allows. *)
Lemma schedule_reachable (fuel : nat) (st st' : ledgers) :
  reachable st ->
  schedule fuel st = Ok st' ->
  reachable st' /\ forall a, In a (accounts sp) -> is_Some (st' !! id a).
Proof.
  revert st. induction fuel as [|fuel IH]; intros st Hreach; cbn [schedule];
    destruct (List.filter (pending st) (accounts sp)) as [|w waiting] eqn:Hw.
  - intros [= <-]. split; [exact Hreach |]. intros a Ha.
    destruct (st !! id a) eqn:E; [eauto |]. exfalso.
    assert (Hin : In a (List.filter (pending st) (accounts sp)))
      by (apply filter_In; split; [exact Ha | now apply pending_spec]).
    now rewrite Hw in Hin.
  - discriminate.
  - intros [= <-]. split; [exact Hreach |]. intros a Ha.
    destruct (st !! id a) eqn:E; [eauto |]. exfalso.
    assert (Hin : In a (List.filter (pending st) (accounts sp)))
      by (apply filter_In; split; [exact Ha | now apply pending_spec]).
    now rewrite Hw in Hin.
  - destruct (List.find (ready st) (w :: waiting)) as [a|] eqn:Hfind;
      [| discriminate].
    apply find_some in Hfind as [Hin Hready]. rewrite <- Hw in Hin.
    apply filter_In in Hin as [Ha Hpend].
    apply IH. now constructor.
Qed.

Lemma from_spec_projects (st : ledgers) : from_spec = Ok st -> projects st.
Proof.
  unfold from_spec, projects. destruct validate as [[]|e] eqn:Hval; simpl;
    [| discriminate].
  intros Hs. split; [reflexivity |].
  apply (schedule_reachable (length (accounts sp)) ∅); [constructor | exact Hs].
Qed.

Lemma filter_length_lt {A} (f g : A -> bool) (l : list A) (a : A) :
  (forall x, f x = true -> g x = true) ->
  In a l -> g a = true -> f a = false ->
  (length (List.filter f l) < length (List.filter g l))%nat.
Proof.
  intros Hfg. induction l as [|x l IH]; simpl; [intros [] |].
  assert (Hle : (length (List.filter f l) <= length (List.filter g l))%nat).
  { clear IH. induction l as [|y l IHl]; simpl; [lia |].
    destruct (f y) eqn:Ef; [rewrite (Hfg y Ef); simpl; lia |].
    destruct (g y); simpl; lia. }
  intros [->|Hin] Hg Hf.
  - rewrite Hg, Hf. simpl. lia.
  - specialize (IH Hin Hg Hf).
    destruct (f x) eqn:Ef; [rewrite (Hfg x Ef); simpl; lia |].
    destruct (g x); simpl; lia.
Qed.

Lemma pending_insert (st : ledgers) (i : string) (l : ledger) (a : account) :
  pending (<[i := l]> st) a = true -> pending st a = true.
Proof.
  rewrite !pending_spec. destruct (decide (i = id a)) as [->|E].
  - now rewrite lookup_insert_eq.
  - now rewrite lookup_insert_ne.
Qed.

(** With one unit of fuel per pending account, the scheduler raises only
    from a state in which accounts are pending and none of them is ready. *)
Lemma schedule_stuck (fuel : nat) (st : ledgers) (e : exn) :
  (length (List.filter (pending st) (accounts sp)) <= fuel)%nat ->
  reachable st ->
  schedule fuel st = Raise e ->
  exists st',
    reachable st' /\
    (exists a, In a (accounts sp) /\ pending st' a = true) /\
    (forall a, In a (accounts sp) -> pending st' a = true -> ready st' a = false).
Proof.
  revert st. induction fuel as [|fuel IH]; intros st Hlen Hreach; cbn [schedule];
    destruct (List.filter (pending st) (accounts sp)) as [|w waiting] eqn:Hw;
    try discriminate.
  - simpl in Hlen. lia.
  - destruct (List.find (ready st) (w :: waiting)) as [a|] eqn:Hfind.
    + apply find_some in Hfind as [Hin Hready]. rewrite <- Hw in Hin.
      apply filter_In in Hin as [Ha Hpend].
      apply IH; [| now constructor].
      assert (Hlt : (length (List.filter (pending (<[id a := ledger_of st a]> st))
                               (accounts sp))
                     < length (List.filter (pending st) (accounts sp)))%nat).
      { apply (filter_length_lt _ _ _ a); auto.
        - intros x. apply pending_insert.
        - apply not_true_iff_false. rewrite pending_spec, lookup_insert_eq.
          discriminate. }
      rewrite Hw in Hlt. simpl in *. lia.
    + intros _. exists st. split; [exact Hreach |]. split.
      * exists w. apply (filter_In (pending st)). rewrite Hw. now left.
      * intros a Ha Hpend. apply (find_none _ _ Hfind).
        rewrite <- Hw. apply filter_In. now split.
Qed.

(** No evaluation gets past a state in which no pending account is ready. *)
Lemma stuck_stays (st' r : ledgers) :
  (forall a, In a (accounts sp) -> pending st' a = true -> ready st' a = false) ->
  reachable r ->
  forall a, In a (accounts sp) -> pending st' a = true -> r !! id a = None.
Proof.
  intros Hstuck Hr.
  induction Hr as [|r a0 Hreach IH Ha0 Hpend0 Hready0]; intros a Ha Hpend.
  - apply lookup_empty.
  - destruct (decide (id a0 = id a)) as [E|E];
      [| rewrite lookup_insert_ne by exact E; now apply IH].
    exfalso. specialize (Hstuck a Ha Hpend).
    apply not_true_iff_false in Hstuck. apply Hstuck.
    apply ready_spec. intros j Hj. rewrite <- E in Hj.
    destruct (proj1 (ready_spec r a0) Hready0 j Hj) as [lj Hlj].
    destruct (reachable_ledger r Hreach j lj Hlj) as (aj & Haj & Hid & _).
    destruct (st' !! j) eqn:Ej; [eauto |]. exfalso.
    assert (Hpj : pending st' aj = true) by (apply pending_spec; now rewrite Hid).
    pose proof (IH aj Haj Hpj) as Hn. rewrite Hid in Hn. congruence.
Qed.

(** [from_spec] returns the ledgers whenever the specification has a run:
    it raises only on an invalid specification or on a dependency cycle. *)
Lemma from_spec_complete (r : ledgers) :
  projects r -> exists st, from_spec = Ok st.
Proof.
  intros (Hval & Hr & Hcomplete). unfold from_spec. rewrite Hval. simpl.
  destruct (schedule (length (accounts sp)) ∅) as [st|e] eqn:Hs; [eauto |].
  exfalso.
  destruct (schedule_stuck _ _ _ (filter_length_le _ _) reach_start Hs)
    as (st' & _ & (a & Ha & Hpend) & Hstuck).
  destruct (Hcomplete a Ha) as [l Hl].
  rewrite (stuck_stays st' r Hstuck Hr a Ha Hpend) in Hl. discriminate.
Qed.

(** C5: the projection is deterministic -- two runs on the same
    specification and window, in whatever order the dependencies allow the
    accounts to be evaluated, end with the same ledger for every account,
    and [from_spec] returns these ledgers. *)
Theorem projection_deterministic (r1 r2 : ledgers) :
  projects r1 -> projects r2 ->
  r1 = r2 /\
  (forall i, r1 !! i = r2 !! i) /\
  from_spec = Ok r1.
Proof.
  assert (Heq : forall x y : ledgers, projects x -> projects y -> x = y).
  { intros x y (Hval & Hx & Hcx) (_ & Hy & Hcy). apply map_eq. intros i.
    destruct (x !! i) as [l|] eqn:E.
    - symmetry. now apply (reachable_included x y Hval Hx Hy Hcy).
    - destruct (y !! i) as [l|] eqn:E'; [| reflexivity].
      rewrite (reachable_included y x Hval Hy Hx Hcx i l E') in E.
      discriminate. }
  intros H1 H2. split; [now apply Heq |]. split.
  - intros i. now rewrite (Heq r1 r2).
  - destruct (from_spec_complete r1 H1) as [st Hst]. rewrite Hst. f_equal.
    apply Heq; [now apply from_spec_projects | exact H1].
Qed.

End Projection.

Arguments mk_rule {DateSpec}.
Arguments mk_spec {DateSpec}.

(** Two recurrences to run the projection on: a single date, and a day of
    every month, cut to the length of the month. *)
Module Example.

Inductive date_spec : Type :=
| Once (d : date)
| MonthlyByDay (day_of_month : Z).

Definition months (d : date) : Z := year d * 12 + (month d - 1).

Definition within (w : date * date) (d : date) : bool :=
  date_leb (fst w) d && date_leb d (snd w).

Definition resolve (ds : date_spec) (w : date * date) : list date :=
  match ds with
  | Once d => if within w d then [d] else []
  | MonthlyByDay day_of_month =>
      List.filter (within w)
        (map (fun k =>
                let ym := months (fst w) + Z.of_nat k in
                let y := ym / 12 in
                let m := ym mod 12 + 1 in
                mkdate y m (Z.min day_of_month (days_in_month y m)))
             (seq 0 (Z.to_nat (months (snd w) - months (fst w) + 1))))
  end.

Definition window : date * date := (mkdate 2024 1 1, mkdate 2024 3 31).

Definition checking : account :=
  mk_account "checking" "Checking" 1000 (mkdate 2024 1 1).

Definition brokerage : account :=
  mk_account "brokerage" "Brokerage" 5000 (mkdate 2024 1 1).

Definition savings : account :=
  mk_account "savings" "Savings" 0 (mkdate 2024 1 1).

Definition salary : rule date_spec :=
  mk_rule "salary" (Fixed 2000) Deposit "checking" None (MonthlyByDay 1)
    (Some (mkdate 2024 1 1)) (Some (mkdate 2024 3 1)).

Definition rent : rule date_spec :=
  mk_rule "rent" (Fixed 1200) Withdrawal "checking" None (MonthlyByDay 3)
    None None.

Definition dividend : rule date_spec :=
  mk_rule "dividend" (Fixed 40) Deposit "brokerage" None
    (Once (mkdate 2024 2 15)) None None.

(** A tenth of what the checking account holds on the last day of the
    month. *)
Definition tithe : rule date_spec :=
  mk_rule "tithe" (Formula "checking" (fun b => b / 10)) Deposit "savings" None
    (MonthlyByDay 31) None None.

(** The scenario of section 8. *)
Definition scenario : spec date_spec := mk_spec [checking] [salary; rent].

(** Three accounts; the savings account reads the checking account. *)
Definition household : spec date_spec :=
  mk_spec [checking; brokerage; savings] [salary; rent; dividend; tithe].

(** The cycle of section 8: each of two accounts takes a tenth of what the
    other holds. *)
Definition cyclic : spec date_spec :=
  mk_spec
    [mk_account "A" "A" 100 (mkdate 2024 1 1);
     mk_account "B" "B" 100 (mkdate 2024 1 1)]
    [mk_rule "a-from-b" (Formula "B" (fun b => b / 10)) Deposit "A" None
       (MonthlyByDay 1) None None;
     mk_rule "b-from-a" (Formula "A" (fun b => b / 10)) Deposit "B" None
       (MonthlyByDay 1) None None].

Definition ledger_in (st : ledgers) (a : account) : ledger :=
  ledger_of date_spec resolve household window st a.

Definition evaluate (a : account) (st : ledgers) : ledgers :=
  <[id a := ledger_in st a]> st.

(** The accounts in declaration order, and the brokerage account first. *)
Definition run_declared : ledgers :=
  evaluate savings (evaluate brokerage (evaluate checking ∅)).

Definition run_brokerage_first : ledgers :=
  evaluate savings (evaluate checking (evaluate brokerage ∅)).

End Example.

(** The scenario of section 8 yields the ledger the section lists. *)
Example scenario_ledger :
  (let? st := from_spec Example.date_spec Example.resolve Example.scenario
                Example.window in
   Ok (st !! "checking"))
  = Ok (Some example_ledger).
Proof. vm_compute. reflexivity. Qed.

(** The cycle of section 8 is refused, and no ledger is produced. *)
Example cyclic_refused :
  from_spec Example.date_spec Example.resolve Example.cyclic Example.window
  = Raise (Raised "DependencyCycleError").
Proof. vm_compute. reflexivity. Qed.

Lemma run_declared_projects :
  projects Example.date_spec Example.resolve Example.household Example.window
    Example.run_declared.
Proof.
  split; [reflexivity |]. split.
  - unfold Example.run_declared, Example.evaluate.
    repeat (apply reach_step || apply reach_start);
      try (vm_compute; reflexivity); simpl; tauto.
  - intros a [<-|[<-|[<-|[]]]]; eexists; vm_compute; reflexivity.
Qed.

Lemma run_brokerage_first_projects :
  projects Example.date_spec Example.resolve Example.household Example.window
    Example.run_brokerage_first.
Proof.
  split; [reflexivity |]. split.
  - unfold Example.run_brokerage_first, Example.evaluate.
    repeat (apply reach_step || apply reach_start);
      try (vm_compute; reflexivity); simpl; tauto.
  - intros a [<-|[<-|[<-|[]]]]; eexists; vm_compute; reflexivity.
Qed.

Lemma projection_deterministic_witness :
  projects Example.date_spec Example.resolve Example.household Example.window
    Example.run_declared /\
  projects Example.date_spec Example.resolve Example.household Example.window
    Example.run_brokerage_first /\
  Example.run_declared = Example.run_brokerage_first.
Proof.
  split; [exact run_declared_projects |].
  split; [exact run_brokerage_first_projects |].
  exact (proj1 (projection_deterministic Example.date_spec Example.resolve
                  Example.household Example.window
                  Example.run_declared Example.run_brokerage_first
                  run_declared_projects run_brokerage_first_projects)).
Defined.

End Engine.
